(** * fimbu.utils.crypto: a shallow embedding and its verified properties

    The development follows [src/fimbu/utils/crypto.py]: the password manager
    (a thin wrapper around passlib), [salted_hmac], [get_random_string],
    [constant_time_compare], [pbkdf2] and [get_random_secret_key].

    Python values are modelled as follows.
    - [bytes] objects are lists of [Byte.byte];
    - [str] objects are lists of Unicode code points (numbers in [N]);
    - machine words and octets inside the primitives are numbers in [N] with
      their wrap-around written out;
    - a raised exception is a value of [exception], and a computation that may
      raise and may consume entropy is a function from the state of the
      entropy source to a [result] and the next state. *)

From Stdlib Require Import String Ascii.
From Stdlib Require Import NArith ZArith List Bool Lia.
From Stdlib Require Import Init.Byte.
Import ListNotations.

Local Open Scope N_scope.

(* ===================================================================== *)
(** * Python values, exceptions and computations                          *)
(* ===================================================================== *)

Module Py.

(** A [bytes] object. *)
Definition bytes := list byte.

(** A [str] object: its code points, each below [0x110000]. *)
Definition str := list N.

(** The octet [n mod 256]. *)
Definition byte_of_N (n : N) : byte :=
  match Byte.of_N (n mod 256) with
  | Some b => b
  | None => x00
  end.

(** A [str] literal whose characters are all below 256. *)
Definition str_of (s : string) : str :=
  map N_of_ascii (list_ascii_of_string s).

(** A [bytes] literal. *)
Definition bytes_of (s : string) : bytes := list_byte_of_string s.

(** The exceptions raised by the code and by the library calls it makes.
    [InvalidAlgorithm] is the class declared in crypto.py (a subclass of
    ValueError); it carries the offending algorithm name. *)
Inductive exception : Type :=
| InvalidAlgorithm (algorithm : string)
| TypeError
| ValueError
| IndexError
| UnicodeEncodeError
| OverflowError
| AttributeError.

Inductive result (A : Type) : Type :=
| Ok (a : A)
| Raise (e : exception).

Arguments Ok {A} a.
Arguments Raise {A} e.

(** A computation over the state [W] of the process (the entropy source). *)
Definition Proc (W A : Type) : Type := W -> result A * W.

Definition ret {W A} (a : A) : Proc W A := fun w => (Ok a, w).

Definition raise {W A} (e : exception) : Proc W A := fun w => (Raise e, w).

Definition bind {W A B} (m : Proc W A) (k : A -> Proc W B) : Proc W B :=
  fun w =>
    match m w with
    | (Ok a, w') => k a w'
    | (Raise e, w') => (Raise e, w')
    end.

(** A call that touches no state. *)
Definition lift {W A} (r : result A) : Proc W A := fun w => (r, w).

(** [x or None] on an optional integer: 0 and None are falsy. *)
Definition or_None (x : option Z) : option Z :=
  match x with
  | Some 0%Z => None
  | _ => x
  end.

(** ** [str.encode()]: UTF-8 *)

Definition utf8_char (c : N) : option bytes :=
  if c <? 0x80 then Some [byte_of_N c]
  else if c <? 0x800 then
    Some [byte_of_N (N.lor 0xC0 (N.shiftr c 6));
          byte_of_N (N.lor 0x80 (N.land c 0x3F))]
  else if c <? 0x10000 then
    if (0xD800 <=? c) && (c <=? 0xDFFF) then None
    else
      Some [byte_of_N (N.lor 0xE0 (N.shiftr c 12));
            byte_of_N (N.lor 0x80 (N.land (N.shiftr c 6) 0x3F));
            byte_of_N (N.lor 0x80 (N.land c 0x3F))]
  else if c <? 0x110000 then
    Some [byte_of_N (N.lor 0xF0 (N.shiftr c 18));
          byte_of_N (N.lor 0x80 (N.land (N.shiftr c 12) 0x3F));
          byte_of_N (N.lor 0x80 (N.land (N.shiftr c 6) 0x3F));
          byte_of_N (N.lor 0x80 (N.land c 0x3F))]
  else None.

(** [s.encode()]: a lone surrogate cannot be encoded. *)
Fixpoint encode (s : str) : result bytes :=
  match s with
  | [] => Ok []
  | c :: s' =>
    match utf8_char c with
    | None => Raise UnicodeEncodeError
    | Some bs =>
      match encode s' with
      | Ok rest => Ok (bs ++ rest)
      | Raise e => Raise e
      end
    end
  end.

(** ** Format specification [<width] and slicing *)

Definition space : N := 32.

(** [f"{s:<width}"]: left-aligned in a field of [width] characters, filled
    with spaces; a longer string is left as it is. *)
Definition format_left (width : nat) (s : str) : str :=
  s ++ repeat space (width - length s)%nat.

(** [s[:n]]. *)
Definition slice_to {A} (n : nat) (s : list A) : list A := firstn n s.

End Py.

Import Py.

Declare Scope proc_scope.
Delimit Scope proc_scope with proc.
Notation "x <- m ;; k" := (bind m (fun x => k))
  (at level 61, m at next level, right associativity) : proc_scope.

(* ===================================================================== *)
(** * base64: the URL-safe alphabet (RFC 4648, section 5)                 *)
(* ===================================================================== *)

Module Base64.

Definition alphabet : bytes :=
  bytes_of "ABCDEFGHIJKLMNOPQRSTUVWXYZabcdefghijklmnopqrstuvwxyz0123456789-_".

Definition pad : byte := "=".

(** The character of a sextet. *)
Definition b2a (sextet : N) : byte := nth (N.to_nat sextet) alphabet pad.

Fixpoint index_from (i : N) (c : byte) (l : bytes) : option N :=
  match l with
  | [] => None
  | x :: l' => if Byte.eqb c x then Some i else index_from (i + 1) c l'
  end.

(** The sextet of a character, if it is one of the alphabet. *)
Definition a2b (c : byte) : option N := index_from 0 c alphabet.

Definition sextet0 (b0 : N) : N := N.shiftr b0 2.
Definition sextet1 (b0 b1 : N) : N :=
  N.lor (N.shiftl (N.land b0 3) 4) (N.shiftr b1 4).
Definition sextet2 (b1 b2 : N) : N :=
  N.lor (N.shiftl (N.land b1 15) 2) (N.shiftr b2 6).
Definition sextet3 (b2 : N) : N := N.land b2 63.

(** [base64.urlsafe_b64encode]: three octets give four characters; one or
    two octets left over give two or three characters and the padding. *)
Fixpoint urlsafe_b64encode (data : bytes) : bytes :=
  match data with
  | [] => []
  | [b0] =>
    let n0 := Byte.to_N b0 in
    [b2a (sextet0 n0); b2a (sextet1 n0 0); pad; pad]
  | [b0; b1] =>
    let n0 := Byte.to_N b0 in
    let n1 := Byte.to_N b1 in
    [b2a (sextet0 n0); b2a (sextet1 n0 n1); b2a (sextet2 n1 0); pad]
  | b0 :: b1 :: b2 :: rest =>
    let n0 := Byte.to_N b0 in
    let n1 := Byte.to_N b1 in
    let n2 := Byte.to_N b2 in
    b2a (sextet0 n0) :: b2a (sextet1 n0 n1) :: b2a (sextet2 n1 n2)
      :: b2a (sextet3 n2) :: urlsafe_b64encode rest
  end.

Definition octet0 (s0 s1 : N) : byte :=
  byte_of_N (N.lor (N.shiftl s0 2) (N.shiftr s1 4)).
Definition octet1 (s1 s2 : N) : byte :=
  byte_of_N (N.lor (N.shiftl (N.land s1 15) 4) (N.shiftr s2 2)).
Definition octet2 (s2 s3 : N) : byte :=
  byte_of_N (N.lor (N.shiftl (N.land s2 3) 6) s3).

(** [base64.urlsafe_b64decode] on canonical input: groups of four
    characters, the last one possibly padded.  [None] stands for
    binascii.Error. *)
Fixpoint urlsafe_b64decode (s : bytes) : option bytes :=
  match s with
  | [] => Some []
  | c0 :: c1 :: c2 :: c3 :: rest =>
    match a2b c0, a2b c1 with
    | Some s0, Some s1 =>
      match rest, Byte.eqb c3 pad, Byte.eqb c2 pad with
      | [], true, true => Some [octet0 s0 s1]
      | [], true, false =>
        match a2b c2 with
        | Some s2 => Some [octet0 s0 s1; octet1 s1 s2]
        | None => None
        end
      | _, _, _ =>
        match a2b c2, a2b c3, urlsafe_b64decode rest with
        | Some s2, Some s3, Some tail =>
          Some (octet0 s0 s1 :: octet1 s1 s2 :: octet2 s2 s3 :: tail)
        | _, _, _ => None
        end
      end
    | _, _ => None
    end
  | _ => None
  end.

End Base64.

(* ===================================================================== *)
(** * hashlib: SHA-1 and SHA-256 (FIPS 180-4)                             *)
(* ===================================================================== *)

Module Hashlib.

(** A hash constructor of hashlib with a fixed output length: its [name]
    attribute, the sizes of its digest and of its input block in octets, and
    the digest of a message ([h(data).digest()]). *)
Record HashAlg : Type := {
  hname : string;
  digest_size : nat;
  block_size : nat;
  hdigest : bytes -> bytes
}.

(** What an attribute of the hashlib module is, for [getattr(hashlib, name)]
    followed by a call and [.digest()]. *)
Inductive attribute : Type :=
| AttrHash (h : HashAlg)   (* md5, sha1, sha256, ...: fixed-length digests *)
| AttrXof                  (* shake_128, shake_256: digest() needs a length *)
| AttrFunction             (* new, pbkdf2_hmac, scrypt, file_digest *)
| AttrData                 (* algorithms_guaranteed, algorithms_available *)
| AttrNoDigest.            (* __eq__, __lt__, ...: the call returns
                              NotImplemented, which has no digest() *)

(** ** 32-bit words *)

Definition mask32 : N := 0xFFFFFFFF.
Definition add32 (a b : N) : N := N.land (a + b) mask32.
Definition not32 (a : N) : N := N.lxor a mask32.
Definition rotr32 (n x : N) : N :=
  N.lor (N.shiftr x n) (N.land (N.shiftl x (32 - n)) mask32).
Definition rotl32 (n x : N) : N := rotr32 (32 - n) x.

(** Big-endian octets of a word. *)
Definition be32 (x : N) : bytes :=
  [byte_of_N (N.shiftr x 24); byte_of_N (N.shiftr x 16);
   byte_of_N (N.shiftr x 8); byte_of_N x].

Definition be64 (x : N) : bytes :=
  be32 (N.land (N.shiftr x 32) mask32) ++ be32 (N.land x mask32).

Fixpoint words_of (data : bytes) : list N :=
  match data with
  | b0 :: b1 :: b2 :: b3 :: rest =>
    N.lor (N.shiftl (Byte.to_N b0) 24)
      (N.lor (N.shiftl (Byte.to_N b1) 16)
         (N.lor (N.shiftl (Byte.to_N b2) 8) (Byte.to_N b3)))
      :: words_of rest
  | _ => []
  end.

(** Padding: the bit 1, zeros up to 56 modulo 64 octets, and the length of
    the message in bits as a 64-bit big-endian number. *)
Definition md_pad (data : bytes) : bytes :=
  let len := N.of_nat (length data) in
  let zeros := (119 - len mod 64) mod 64 in
  data ++ byte_of_N 0x80 :: repeat x00 (N.to_nat zeros) ++ be64 (8 * len).

(** The Merkle-Damgard iteration over blocks of sixteen words. *)
Fixpoint md_blocks {S} (compress : S -> list N -> S) (n : nat)
    (st : S) (ws : list N) : S :=
  match n with
  | O => st
  | S n' => md_blocks compress n' (compress st (firstn 16 ws)) (skipn 16 ws)
  end.

Definition md_run {S} (compress : S -> list N -> S) (init : S)
    (data : bytes) : S :=
  let ws := words_of (md_pad data) in
  md_blocks compress (length ws / 16) init ws.

(** ** The constants: fractional parts of roots of the first primes *)

Definition is_prime (n : N) : bool :=
  forallb (fun d => negb (n mod N.of_nat d =? 0)) (seq 2 (N.to_nat n - 2)).

Definition primes64 : list N :=
  Eval vm_compute in filter is_prime (map N.of_nat (seq 2 310)).

Fixpoint icbrt_bits (bit : nat) (x r : N) : N :=
  match bit with
  | O => r
  | S b =>
    let c := r + 2 ^ N.of_nat b in
    icbrt_bits b x (if c * c * c <=? x then c else r)
  end.

(** The first 32 bits of the fractional part of the cube root of [p]. *)
Definition frac_cbrt32 (p : N) : N :=
  N.land (icbrt_bits 40 (p * 2 ^ 96) 0) mask32.

(** The first 32 bits of the fractional part of the square root of [p]. *)
Definition frac_sqrt32 (p : N) : N := N.land (N.sqrt (p * 2 ^ 64)) mask32.

Definition K256 : list N := Eval vm_compute in map frac_cbrt32 primes64.

(** ** SHA-256 *)

Definition Ch (x y z : N) : N := N.lxor (N.land x y) (N.land (not32 x) z).
Definition Maj (x y z : N) : N :=
  N.lxor (N.land x y) (N.lxor (N.land x z) (N.land y z)).
Definition Sigma0 (x : N) : N :=
  N.lxor (rotr32 2 x) (N.lxor (rotr32 13 x) (rotr32 22 x)).
Definition Sigma1 (x : N) : N :=
  N.lxor (rotr32 6 x) (N.lxor (rotr32 11 x) (rotr32 25 x)).
Definition sigma0 (x : N) : N :=
  N.lxor (rotr32 7 x) (N.lxor (rotr32 18 x) (N.shiftr x 3)).
Definition sigma1 (x : N) : N :=
  N.lxor (rotr32 17 x) (N.lxor (rotr32 19 x) (N.shiftr x 10)).

(** The message schedule, most recent word first. *)
Fixpoint schedule256 (n : nat) (rev_w : list N) : list N :=
  match n with
  | O => rev_w
  | S n' =>
    let w := add32 (add32 (sigma1 (nth 1 rev_w 0)) (nth 6 rev_w 0))
                   (add32 (sigma0 (nth 14 rev_w 0)) (nth 15 rev_w 0)) in
    schedule256 n' (w :: rev_w)
  end.

Definition state256 : Type := N * N * N * N * N * N * N * N.

Definition round256 (st : state256) (kw : N * N) : state256 :=
  let '(a, b, c, d, e, f, g, h) := st in
  let '(k, w) := kw in
  let t1 := add32 (add32 (add32 h (Sigma1 e)) (add32 (Ch e f g) k)) w in
  let t2 := add32 (Sigma0 a) (Maj a b c) in
  (add32 t1 t2, a, b, c, add32 d t1, e, f, g).

Definition compress256 (st : state256) (block : list N) : state256 :=
  let w := rev (schedule256 48 (rev block)) in
  let '(a, b, c, d, e, f, g, h) := st in
  let '(a', b', c', d', e', f', g', h') :=
    fold_left round256 (combine K256 w) st in
  (add32 a a', add32 b b', add32 c c', add32 d d',
   add32 e e', add32 f f', add32 g g', add32 h h').

Definition init256 : state256 :=
  Eval vm_compute in
  match map frac_sqrt32 (firstn 8 primes64) with
  | [a; b; c; d; e; f; g; h] => (a, b, c, d, e, f, g, h)
  | _ => (0, 0, 0, 0, 0, 0, 0, 0)
  end.

Definition sha256_digest (data : bytes) : bytes :=
  let '(a, b, c, d, e, f, g, h) := md_run compress256 init256 data in
  be32 a ++ be32 b ++ be32 c ++ be32 d ++ be32 e ++ be32 f ++ be32 g ++ be32 h.

(** [hashlib.sha256]. *)
Definition sha256 : HashAlg :=
  {| hname := "sha256"; digest_size := 32; block_size := 64;
     hdigest := sha256_digest |}.

(** ** SHA-1 *)

Definition state1 : Type := N * N * N * N * N.

Fixpoint schedule1 (n : nat) (rev_w : list N) : list N :=
  match n with
  | O => rev_w
  | S n' =>
    let w := rotl32 1 (N.lxor (N.lxor (nth 2 rev_w 0) (nth 7 rev_w 0))
                              (N.lxor (nth 13 rev_w 0) (nth 15 rev_w 0))) in
    schedule1 n' (w :: rev_w)
  end.

(** The round function and constant of round [t]. *)
Definition f1 (t : nat) (b c d : N) : N * N :=
  if (t <? 20)%nat then (Ch b c d, 0x5A827999)
  else if (t <? 40)%nat then (N.lxor b (N.lxor c d), 0x6ED9EBA1)
  else if (t <? 60)%nat then (Maj b c d, 0x8F1BBCDC)
  else (N.lxor b (N.lxor c d), 0xCA62C1D6).

Definition round1 (st : state1) (tw : nat * N) : state1 :=
  let '(a, b, c, d, e) := st in
  let '(t, w) := tw in
  let '(f, k) := f1 t b c d in
  let tmp := add32 (add32 (rotl32 5 a) f) (add32 (add32 e k) w) in
  (tmp, a, rotl32 30 b, c, d).

Definition compress1 (st : state1) (block : list N) : state1 :=
  let w := rev (schedule1 64 (rev block)) in
  let '(a, b, c, d, e) := st in
  let '(a', b', c', d', e') := fold_left round1 (combine (seq 0 80) w) st in
  (add32 a a', add32 b b', add32 c c', add32 d d', add32 e e').

Definition init1 : state1 :=
  (0x67452301, 0xEFCDAB89, 0x98BADCFE, 0x10325476, 0xC3D2E1F0).

Definition sha1_digest (data : bytes) : bytes :=
  let '(a, b, c, d, e) := md_run compress1 init1 data in
  be32 a ++ be32 b ++ be32 c ++ be32 d ++ be32 e.

(** [hashlib.sha1]. *)
Definition sha1 : HashAlg :=
  {| hname := "sha1"; digest_size := 20; block_size := 64;
     hdigest := sha1_digest |}.

End Hashlib.

(* ===================================================================== *)
(** * hmac and hashlib.pbkdf2_hmac (RFC 2104, RFC 8018)                   *)
(* ===================================================================== *)

Module Hmac.

Import Hashlib.

Definition xor_const (c : N) (key : bytes) : bytes :=
  map (fun b => byte_of_N (N.lxor (Byte.to_N b) c)) key.

(** The key of one block: a key longer than the block is hashed first, and
    the result is filled with zero octets. *)
Definition block_key (h : HashAlg) (key : bytes) : bytes :=
  let k := if (block_size h <? length key)%nat then hdigest h key else key in
  k ++ repeat x00 (block_size h - length k)%nat.

Definition hmac_digest (h : HashAlg) (key msg : bytes) : bytes :=
  let k := block_key h key in
  hdigest h (xor_const 0x5C k ++ hdigest h (xor_const 0x36 k ++ msg)).

(** The object returned by [hmac.new(key, msg, digestmod)]. *)
Record HMAC : Type := {
  mac_alg : HashAlg;
  mac_key : bytes;
  mac_msg : bytes
}.

Definition new (key msg : bytes) (digestmod : HashAlg) : HMAC :=
  {| mac_alg := digestmod; mac_key := key; mac_msg := msg |}.

(** [m.digest()]. *)
Definition digest (m : HMAC) : bytes :=
  hmac_digest (mac_alg m) (mac_key m) (mac_msg m).

Definition xor_bytes (a b : bytes) : bytes :=
  map (fun xy => byte_of_N (N.lxor (Byte.to_N (fst xy)) (Byte.to_N (snd xy))))
      (combine a b).

(** [U_2 xor ... xor U_c] folded into [acc], starting from [u = U_1]. *)
Fixpoint pbkdf2_iter (prf : bytes -> bytes) (n : nat) (u acc : bytes) : bytes :=
  match n with
  | O => acc
  | S n' => let u' := prf u in pbkdf2_iter prf n' u' (xor_bytes acc u')
  end.

(** The block [T_i = F(P, S, c, i)]. *)
Definition pbkdf2_block (prf : bytes -> bytes) (salt : bytes) (c : nat)
    (i : nat) : bytes :=
  let u1 := prf (salt ++ be32 (N.of_nat i)) in
  pbkdf2_iter prf (c - 1) u1 u1.

(** The derived key: the first [dklen] octets of [T_1 || T_2 || ...]. *)
Definition pbkdf2_key (h : HashAlg) (password salt : bytes) (c dklen : nat)
    : bytes :=
  let l := ((dklen + digest_size h - 1) / digest_size h)%nat in
  firstn dklen
    (flat_map (pbkdf2_block (hmac_digest h password) salt c) (seq 1 l)).

(** The largest C int, and the range of a C long (64 bits). *)
Definition INT_MAX : Z := 2147483647.
Definition LONG_MIN : Z := -9223372036854775808.
Definition LONG_MAX : Z := 9223372036854775807.

(** An integer that converts to a C long; one that does not is an
    OverflowError. *)
Definition fits_long (z : Z) : bool := (LONG_MIN <=? z)%Z && (z <=? LONG_MAX)%Z.

(** [hashlib.pbkdf2_hmac(hash_name, password, salt, iterations, dklen)]
    over the hashes [by_name] of the platform, with its checks in their
    order: [iterations] is converted to a C long; the hash is looked up (an
    unknown name is a ValueError); password and salt longer than INT_MAX
    octets are OverflowErrors; an iteration count below 1 is a ValueError
    and one above INT_MAX an OverflowError; [dklen=None] stands for the
    digest size of the hash, another [dklen] is converted to a C long; a
    key length below 1 is a ValueError and one above INT_MAX an
    OverflowError. *)
Definition pbkdf2_hmac (by_name : string -> option HashAlg)
    (hash_name : string) (password salt : bytes) (iterations : Z)
    (dklen : option Z) : result bytes :=
  if negb (fits_long iterations) then Raise OverflowError
  else
    match by_name hash_name with
    | None => Raise ValueError
    | Some h =>
      if (INT_MAX <? Z.of_nat (length password))%Z then Raise OverflowError
      else if (INT_MAX <? Z.of_nat (length salt))%Z then Raise OverflowError
      else if (iterations <? 1)%Z then Raise ValueError
      else if (INT_MAX <? iterations)%Z then Raise OverflowError
      else
        match
          match dklen with
          | None => Ok (Z.of_nat (digest_size h))
          | Some d => if fits_long d then Ok d else Raise OverflowError
          end
        with
        | Raise e => Raise e
        | Ok dklen =>
          if (dklen <? 1)%Z then Raise ValueError
          else if (INT_MAX <? dklen)%Z then Raise OverflowError
          else
            Ok (pbkdf2_key h password salt (Z.to_nat iterations)
                  (Z.to_nat dklen))
        end
    end.

End Hmac.

(* ===================================================================== *)
(** * secrets: compare_digest and choice                                  *)
(* ===================================================================== *)

Module Secrets.

(** The loop of [compare_digest]: every octet of [right] is visited and the
    differences are accumulated in [result]. *)
Fixpoint tscmp_loop (left right : bytes) (result : N) {struct right} : N :=
  match right with
  | [] => result
  | r :: right' =>
    match left with
    | [] => result
    | l :: left' =>
      tscmp_loop left' right'
        (N.lor result (N.lxor (Byte.to_N l) (Byte.to_N r)))
    end
  end.

(** [secrets.compare_digest(a, b)] on bytes: when the lengths differ, [b]
    is compared with itself and the result is forced to be a difference. *)
Definition compare_digest (a b : bytes) : bool :=
  let left := if (length a =? length b)%nat then a else b in
  let result := if (length a =? length b)%nat then 0 else 1 in
  tscmp_loop left b result =? 0.

Section Choice.

Variable Rng : Type.
Variable randbelow : N -> Rng -> N * Rng.

(** [secrets.choice(seq)]: [seq[randbelow(len(seq))]]; an empty sequence is
    an IndexError. *)
Definition choice {A} (seq : list A) : Proc Rng A :=
  fun g =>
    match seq with
    | [] => (Raise IndexError, g)
    | _ :: _ =>
      let (i, g') := randbelow (N.of_nat (length seq)) g in
      match nth_error seq (N.to_nat i) with
      | Some x => (Ok x, g')
      | None => (Raise IndexError, g')
      end
    end.

End Choice.

End Secrets.

(* ===================================================================== *)
(** * The platform the module runs on                                     *)
(* ===================================================================== *)

(** What crypto.py takes from outside its own file.
    - [force_bytes] is fimbu.utils.encoding.force_bytes, which canonicalizes
      a value to bytes, and [PyObj] is the type of the values it accepts;
    - [SECRET_KEY] is fimbu.conf.settings.SECRET_KEY;
    - [hashlib_getattr] gives the attributes of the hashlib module and
      [hashlib_by_name] the hashes that pbkdf2_hmac finds by name;
    - [randbelow n] draws a number below [n] from the system's entropy
      source, whose state has type [Rng]. *)
Class Platform : Type := {
  PyObj : Type;
  force_bytes : PyObj -> bytes;
  SECRET_KEY : PyObj;
  hashlib_getattr : string -> option Hashlib.attribute;
  hashlib_by_name : string -> option Hashlib.HashAlg;
  Rng : Type;
  randbelow : N -> Rng -> N * Rng
}.

(** passlib's CryptContext over the given schemes: [context_hash] hashes a
    password and [context_verify] verifies a password against an encoded
    hash that is present, with the replacement hash if one is due.  Both
    may raise and may draw a salt from the entropy source. *)
Class Passlib (P : Platform) : Type := {
  context_hash : list string -> PyObj -> Proc Rng str;
  context_verify : list string -> PyObj -> str -> Proc Rng (bool * option str)
}.

(** [randbelow] keeps its promise. *)
Definition randbelow_ok (P : Platform) : Prop :=
  forall n g, 0 < n -> fst (randbelow n g) < n.

(** A hash whose digests have the length it declares. *)
Definition hash_ok (h : Hashlib.HashAlg) : Prop :=
  (0 < Hashlib.digest_size h)%nat /\
  forall m, length (Hashlib.hdigest h m) = Hashlib.digest_size h.

(* ===================================================================== *)
(** * crypto.py                                                           *)
(* ===================================================================== *)

Module Crypto.

Import Hashlib.
Local Open Scope proc_scope.

Section Model.

Context {P : Platform} {L : Passlib P}.

(** ** class PasswordManager *)

(** Modelled from the spec: passlib's CryptContext.verify_and_update is not
    under src.  With a hash that is absent the call is "no match, nothing to
    update" rather than an error; with a hash that is present it is the
    library's verification. *)
Definition CryptContext_verify_and_update (schemes : list string)
    (secret : PyObj) (hash : option str) : Proc Rng (bool * option str) :=
  match hash with
  | None => ret (false, None)
  | Some h => context_verify schemes secret h
  end.

(** The manager: its [context] is CryptContext(schemes, deprecated="auto"). *)
Record PasswordManager : Type := {
  context : list string
}.

(** [PasswordManager(hash_schemes)]: the schemes default to ["argon2"]. *)
Definition init (hash_schemes : option (list string)) : PasswordManager :=
  let hash_schemes :=
    match hash_schemes with
    | None => ["argon2"%string]
    | Some l => l
    end in
  {| context := hash_schemes |}.

(** [get_encryption_key(secret)]:
    if len(secret) <= 32: secret = f"{secret:<32}"[:32]
    return base64.urlsafe_b64encode(secret.encode()) *)
Definition get_encryption_key (secret : str) : Proc Rng bytes :=
  let secret :=
    if (length secret <=? 32)%nat
    then slice_to 32 (format_left 32 secret)
    else secret in
  raw <- lift (encode secret) ;;
  ret (Base64.urlsafe_b64encode raw).

(** [get_password_hash(password)]: context.hash(password), run in the
    executor of the event loop and awaited. *)
Definition get_password_hash (self : PasswordManager) (password : PyObj)
    : Proc Rng str :=
  context_hash (context self) password.

(** [verify_password(plain_password, hashed_password)]. *)
Definition verify_password (self : PasswordManager) (plain_password : PyObj)
    (hashed_password : str) : Proc Rng bool :=
  r <- CryptContext_verify_and_update (context self) plain_password
         (Some hashed_password) ;;
  ret (fst r).

(** [verify_and_update(password, password_hash)]: the cast changes nothing. *)
Definition verify_and_update (self : PasswordManager) (password : PyObj)
    (password_hash : option str) : Proc Rng (bool * option str) :=
  CryptContext_verify_and_update (context self) password password_hash.

(** ** salted_hmac *)

(** [hasher(data).digest()] for an attribute of hashlib. *)
Definition call_digest (hasher : attribute) (data : bytes) : result bytes :=
  match hasher with
  | AttrHash h => Ok (hdigest h data)
  | AttrXof => Raise TypeError
  | AttrFunction => Raise TypeError
  | AttrData => Raise TypeError
  | AttrNoDigest => Raise AttributeError
  end.

(** [hmac.new(key, msg, digestmod=hasher)]. *)
Definition hmac_new (key msg : bytes) (hasher : attribute) : result Hmac.HMAC :=
  match hasher with
  | AttrHash h => Ok (Hmac.new key msg h)
  | _ => Raise TypeError
  end.

Definition salted_hmac (key_salt value : PyObj) (secret : option PyObj)
    (algorithm : string) : Proc Rng Hmac.HMAC :=
  let secret :=
    match secret with
    | None => SECRET_KEY
    | Some s => s
    end in
  let key_salt := force_bytes key_salt in
  let secret := force_bytes secret in
  hasher <- match hashlib_getattr algorithm with
            | Some a => ret a
            | None => raise (InvalidAlgorithm algorithm)
            end ;;
  key <- lift (call_digest hasher (key_salt ++ secret)) ;;
  lift (hmac_new key (force_bytes value) hasher).

(** ** get_random_string *)

Definition RANDOM_STRING_CHARS : str :=
  str_of "abcdefghijklmnopqrstuvwxyzABCDEFGHIJKLMNOPQRSTUVWXYZ0123456789".

(** The generator [secrets.choice(allowed_chars) for i in range(n)],
    consumed by [join]. *)
Fixpoint choices (n : nat) (allowed_chars : str) : Proc Rng str :=
  match n with
  | O => ret []
  | S n' =>
    c <- Secrets.choice Rng randbelow allowed_chars ;;
    rest <- choices n' allowed_chars ;;
    ret (c :: rest)
  end.

(** [range(length)] is empty for a length that is not positive. *)
Definition get_random_string (length : Z) (allowed_chars : str)
    : Proc Rng str :=
  choices (Z.to_nat length) allowed_chars.

(** ** constant_time_compare *)

Definition constant_time_compare (val1 val2 : PyObj) : Proc Rng bool :=
  ret (Secrets.compare_digest (force_bytes val1) (force_bytes val2)).

(** ** pbkdf2 *)

Definition pbkdf2 (password salt : PyObj) (iterations : Z) (dklen : option Z)
    (digest : option HashAlg) : Proc Rng bytes :=
  let digest :=
    match digest with
    | None => sha256
    | Some d => d
    end in
  let dklen := or_None dklen in
  let password := force_bytes password in
  let salt := force_bytes salt in
  lift (Hmac.pbkdf2_hmac hashlib_by_name (hname digest) password salt
          iterations dklen).

(** ** get_random_secret_key *)

Definition secret_key_chars : str :=
  str_of "abcdefghijklmnopqrstuvwxyz0123456789!@#$%^&*(-_=+)".

Definition get_random_secret_key (length : Z) : Proc Rng str :=
  get_random_string length secret_key_chars.

End Model.

End Crypto.

(* ===================================================================== *)
(** * A concrete platform                                                 *)
(* ===================================================================== *)

Module Reference.

Import Hashlib.

(** The attributes of hashlib that the examples use.  Of the hash
    constructors only sha1 and sha256 are present. *)
Definition getattr (name : string) : option attribute :=
  if String.eqb name "sha1" then Some (AttrHash sha1)
  else if String.eqb name "sha256" then Some (AttrHash sha256)
  else if String.eqb name "shake_128" then Some AttrXof
  else if String.eqb name "shake_256" then Some AttrXof
  else if String.eqb name "new" then Some AttrFunction
  else if String.eqb name "pbkdf2_hmac" then Some AttrFunction
  else if String.eqb name "algorithms_guaranteed" then Some AttrData
  else if String.eqb name "algorithms_available" then Some AttrData
  else if String.eqb name "__eq__" then Some AttrNoDigest
  else None.

Definition by_name (name : string) : option HashAlg :=
  if String.eqb name "sha1" then Some sha1
  else if String.eqb name "sha256" then Some sha256
  else None.

(** A linear congruential generator standing for the entropy source. *)
Definition lcg (n : N) (g : N) : N * N :=
  ((g / 65536) mod n, (g * 1103515245 + 12345) mod 2147483648).

(** The values are bytes objects, which force_bytes returns unchanged. *)
#[export] Instance platform : Platform := {|
  PyObj := bytes;
  force_bytes := fun b => b;
  SECRET_KEY := bytes_of "process-wide-secret";
  hashlib_getattr := getattr;
  hashlib_by_name := by_name;
  Rng := N;
  randbelow := lcg
|}.

End Reference.

(* ===================================================================== *)
(** * str methods: strip, split, join, startswith, endswith               *)
(* ===================================================================== *)

Module PyStr.

(** [c.isspace()] for one character. *)
Definition isspace (c : N) : bool :=
  ((0x9 <=? c) && (c <=? 0xD)) || ((0x1C <=? c) && (c <=? 0x20))
  || (c =? 0x85) || (c =? 0xA0) || (c =? 0x1680)
  || ((0x2000 <=? c) && (c <=? 0x200A))
  || (c =? 0x2028) || (c =? 0x2029) || (c =? 0x202F) || (c =? 0x205F)
  || (c =? 0x3000).

(** [s.lstrip()]. *)
Fixpoint lstrip (s : str) : str :=
  match s with
  | [] => []
  | c :: rest => if isspace c then lstrip rest else s
  end.

(** [s.rstrip()]. *)
Definition rstrip (s : str) : str := rev (lstrip (rev s)).

(** [s.strip()]. *)
Definition strip (s : str) : str := rstrip (lstrip s).

(** [s.split(sep)] for a separator of one character: one item more than
    there are separators, empty items included. *)
Fixpoint split (sep : N) (s : str) : list str :=
  match s with
  | [] => [[]]
  | c :: rest =>
    if c =? sep then [] :: split sep rest
    else
      match split sep rest with
      | item :: items => (c :: item) :: items
      | [] => [[c]]
      end
  end.

(** [sep.join(items)]. *)
Fixpoint join (sep : str) (items : list str) : str :=
  match items with
  | [] => []
  | [item] => item
  | item :: rest => item ++ sep ++ join sep rest
  end.

(** [a == b]. *)
Fixpoint eqb (a b : str) : bool :=
  match a, b with
  | [], [] => true
  | x :: a', y :: b' => (x =? y) && eqb a' b'
  | _, _ => false
  end.

(** [x in items], for a set, a list or a tuple of strings. *)
Definition mem (x : str) (items : list str) : bool := existsb (eqb x) items.

(** [s.startswith(c)] and [s.endswith(c)] for one character. *)
Definition startswith (c : N) (s : str) : bool :=
  match s with
  | [] => false
  | x :: _ => x =? c
  end.

Definition endswith (c : N) (s : str) : bool := startswith c (rev s).

End PyStr.

(* ===================================================================== *)
(** * middleware/x_forward_host.py                                        *)
(* ===================================================================== *)

(** litestar's MutableScopeHeaders over the raw headers of a scope:
    membership of a header name, the value under a name, and
    [headers.update({name: value})] followed by [headers.raw].  Each may
    raise. *)
Class Litestar : Type := {
  RawHeaders : Type;
  headers_contains : RawHeaders -> str -> result bool;
  headers_getitem : RawHeaders -> str -> result str;
  headers_update : RawHeaders -> str -> str -> result RawHeaders
}.

Module XForwardedHost.

Import PyStr.

Section Model.

Context {F : Litestar}.

(** The keys of an ASGI scope that the middleware reads or writes; it
    touches no other. *)
Record Scope : Type := {
  scope_type : str;
  scope_client : option (str * Z);
  scope_headers : RawHeaders
}.

(** The argument [trusted_hosts: str | list[str]]. *)
Inductive hosts_arg : Type :=
| HostsStr (s : str)
| HostsList (l : list str).

(** The middleware; the set [trusted_hosts] is observed through
    membership only. *)
Record XForwardedHostMiddleware : Type := {
  trusted_hosts : list str;
  always_trust : bool
}.

Definition comma : N := 44.

(** [__init__(app, trusted_hosts)]. *)
Definition init (hosts : hosts_arg) : XForwardedHostMiddleware :=
  let trusted :=
    match hosts with
    | HostsStr s => map strip (split comma s)
    | HostsList l => l
    end in
  {| trusted_hosts := trusted; always_trust := mem (str_of "*") trusted |}.

(** The default argument, "127.0.0.1". *)
Definition default_hosts : hosts_arg := HostsStr (str_of "127.0.0.1").

(** The scope that [__call__] hands to the application. *)
Definition rewrite (self : XForwardedHostMiddleware) (scope : Scope)
    : result Scope :=
  if eqb (scope_type scope) (str_of "http")
     || eqb (scope_type scope) (str_of "websocket")
  then
    let client_host :=
      match scope_client scope with
      | Some (host, _) => Some host
      | None => None
      end in
    if always_trust self
       || match client_host with
          | Some host => mem host (trusted_hosts self)
          | None => false
          end
    then
      match headers_contains (scope_headers scope) (str_of "x-forwarded-host") with
      | Raise e => Raise e
      | Ok false => Ok scope
      | Ok true =>
        match headers_getitem (scope_headers scope)
                (str_of "x-forwarded-host") with
        | Raise e => Raise e
        | Ok forwarded =>
          match headers_update (scope_headers scope) (str_of "host")
                  forwarded with
          | Raise e => Raise e
          | Ok raw =>
            Ok {| scope_type := scope_type scope;
                  scope_client := scope_client scope;
                  scope_headers := raw |}
          end
        end
      end
    else Ok scope
  else Ok scope.

(** The attributes of an instance: [__init__] sets app, trusted_hosts and
    always_trust and does not call AbstractMiddleware.__init__; scopes,
    exclude and exclude_opt_key are attributes of the class
    AbstractMiddleware.  [exclude_pattern] is set by
    AbstractMiddleware.__init__ only. *)
Definition instance_attributes : list string :=
  ["app"; "trusted_hosts"; "always_trust"]%string.

Definition class_attributes : list string :=
  ["scopes"; "exclude"; "exclude_opt_key"]%string.

(** [hasattr(self, name)]. *)
Definition has_attribute (self : XForwardedHostMiddleware) (name : string)
    : bool :=
  existsb (String.eqb name) (instance_attributes ++ class_attributes).

(** The body of [__call__(scope, receive, send)] as the class writes it:
    the application is called with the scope, rewritten or not. *)
Definition original_call {W A} (self : XForwardedHostMiddleware)
    (app : Scope -> Proc W A) (scope : Scope) : Proc W A :=
  match rewrite self scope with
  | Ok scope' => app scope'
  | Raise e => raise e
  end.

(** [__call__] of an instance.  AbstractMiddleware.__init_subclass__
    replaces the method by a wrapper that reads self.scopes,
    self.exclude_pattern and self.exclude_opt_key, asks
    should_bypass_middleware ([should_bypass], with these attributes) and
    calls the application directly or the body above.  Reading an attribute
    that the instance does not have is an AttributeError. *)
Definition call {W A} (should_bypass : Scope -> bool)
    (self : XForwardedHostMiddleware) (app : Scope -> Proc W A)
    (scope : Scope) : Proc W A :=
  if has_attribute self "scopes" && has_attribute self "exclude_pattern"
     && has_attribute self "exclude_opt_key"
  then
    if should_bypass scope then app scope else original_call self app scope
  else raise AttributeError.

End Model.

End XForwardedHost.

(** A concrete header store for the examples: an association list with
    exact names.  MutableScopeHeaders has no attribute [raw], so that
    [headers.update(...)] followed by [headers.raw] is an AttributeError. *)
Module ReferenceHeaders.

Fixpoint lookup (raw : list (str * str)) (name : str) : option str :=
  match raw with
  | [] => None
  | (k, v) :: rest => if PyStr.eqb k name then Some v else lookup rest name
  end.

#[export] Instance headers : Litestar := {|
  RawHeaders := list (str * str);
  headers_contains := fun raw name =>
    Ok (match lookup raw name with Some _ => true | None => false end);
  headers_getitem := fun raw name =>
    match lookup raw name with
    | Some v => Ok v
    | None => Raise IndexError
    end;
  headers_update := fun raw name value => Raise AttributeError
|}.

End ReferenceHeaders.

(* ===================================================================== *)
(** * locale/properties.py                                                *)
(* ===================================================================== *)

Module RootConfigs.

Import PyStr.

Definition slash : N := 47.
Definition dot : N := 46.

(** The number of slashes a path starts with. *)
Fixpoint leading_slashes (s : str) : nat :=
  match s with
  | c :: rest => if c =? slash then S (leading_slashes rest) else O
  | [] => O
  end.

(** The root of a POSIX path: two slashes exactly are kept, any other
    number counts as one. *)
Definition path_root (s : str) : str :=
  match leading_slashes s with
  | O => []
  | 2%nat => [slash; slash]
  | _ => [slash]
  end.

(** The components of a path: empty ones and "." are dropped. *)
Definition path_parts (s : str) : list str :=
  filter (fun x => negb (eqb x [] || eqb x [dot])) (split slash s).

(** [str(pathlib.Path(s))] on POSIX. *)
Definition path_str (s : str) : str :=
  match path_root s, path_parts s with
  | [], [] => [dot]
  | root, parts => root ++ join [slash] parts
  end.

(** [os.path.join(a, b)] on POSIX. *)
Definition path_join (a b : str) : str :=
  if startswith slash b then b
  else
    match a with
    | [] => a ++ b
    | _ => if endswith slash a then a ++ b else a ++ [slash] ++ b
    end.

Record RootConfigs : Type := {
  ROOT_DIR : str;
  BABEL_DEFAULT_LOCALE : str;
  BABEL_TRANSLATION_DIRECTORY : str;
  BABEL_DOMAIN : str;
  BABEL_CONFIG_FILE : str;
  BABEL_MESSAGE_POT_FILE : str
}.

(** The constructor of the dataclass followed by [__post_init__]; the
    fields left at [None] take their defaults. *)
Definition make (root locale translation_directory : str)
    (domain config_file : option str) : RootConfigs :=
  let domain :=
    match domain with
    | None => str_of "messages.pot"
    | Some d => d
    end in
  let config_file :=
    match config_file with
    | None => str_of "babel.cfg"
    | Some f => f
    end in
  let root := path_str root in
  {| ROOT_DIR := root;
     BABEL_DEFAULT_LOCALE := locale;
     BABEL_TRANSLATION_DIRECTORY := path_join root translation_directory;
     BABEL_DOMAIN := domain;
     BABEL_CONFIG_FILE := path_join root config_file;
     BABEL_MESSAGE_POT_FILE := path_join root domain |}.

End RootConfigs.

Import Crypto.

(* ===================================================================== *)
(** * Vocabulary of the statements                                        *)
(* ===================================================================== *)

(** The secret that salted_hmac uses. *)
Definition resolved_secret `{P : Platform} (secret : option PyObj)
    : PyObj :=
  match secret with
  | None => SECRET_KEY
  | Some s => s
  end.

(** The digest that pbkdf2 uses. *)
Definition resolved_digest (digest : option Hashlib.HashAlg)
    : Hashlib.HashAlg :=
  match digest with
  | None => Hashlib.sha256
  | Some d => d
  end.

(** The string that get_encryption_key encodes. *)
Definition normalized_secret (secret : str) : str :=
  if (length secret <=? 32)%nat
  then slice_to 32 (format_left 32 secret)
  else secret.

(** A code point that UTF-8 does not encode: a surrogate, or one past the
    last code point. *)
Definition unencodable (c : N) : Prop :=
  (0xD800 <= c /\ c <= 0xDFFF) \/ 0x110000 <= c.

(** The headers of the scope that the middleware hands on. *)
Definition rewritten_headers `{F : Litestar}
    (self : XForwardedHost.XForwardedHostMiddleware)
    (scope : XForwardedHost.Scope) : result RawHeaders :=
  match XForwardedHost.rewrite self scope with
  | Ok scope' => Ok (XForwardedHost.scope_headers scope')
  | Raise e => Raise e
  end.

(** An item of a comma-separated list of hosts as it is written: the host
    between two runs of whitespace. *)
Definition written_item (item : str * str * str) : str :=
  let '(lead, host, trail) := item in lead ++ host ++ trail.

Definition item_host (item : str * str * str) : str :=
  let '(_, host, _) := item in host.

(** The host of a well-written item has no whitespace at its ends and no
    comma, and what surrounds it is whitespace. *)
Definition item_ok (item : str * str * str) : Prop :=
  let '(lead, host, trail) := item in
  forallb PyStr.isspace lead = true /\
  forallb PyStr.isspace trail = true /\
  PyStr.strip host = host /\
  ~ In XForwardedHost.comma host.

(** A bytes object that pbkdf2_hmac accepts as password or salt: at most
    INT_MAX octets. *)
Definition octets_fit (b : bytes) : Prop :=
  (Z.of_nat (length b) <= Hmac.INT_MAX)%Z.

(** The alphabet of get_random_secret_key: lowercase letters, digits and
    the punctuation marks [!@#$%^&*(-_=+)]. *)
Definition secret_key_char (c : N) : bool :=
  ((97 <=? c) && (c <=? 122))
  || ((48 <=? c) && (c <=? 57))
  || existsb (N.eqb c) (str_of "!@#$%^&*(-_=+)").

(** Lowercase hexadecimal, as [bytes.hex()]. *)
Fixpoint hex (b : bytes) : string :=
  match b with
  | [] => EmptyString
  | x :: rest =>
    let digit := fun k : N =>
      nth (N.to_nat k) (list_ascii_of_string "0123456789abcdef") "?"%char in
    String (digit (Byte.to_N x / 16))
      (String (digit (Byte.to_N x mod 16)) (hex rest))
  end.

(** The numbers below [n], for checks by enumeration. *)
Definition below (n : nat) : list N := map N.of_nat (seq 0 n).

(** All facts about two neighbouring octets that the decoder needs. *)
Definition pair_check (n0 n1 : N) : bool :=
  let s0 := Base64.sextet0 n0 in
  let s1 := Base64.sextet1 n0 n1 in
  let s2 := Base64.sextet2 n0 n1 in
  (s0 <? 64) && (s1 <? 64) && (s2 <? 64) && (Base64.sextet3 n0 <? 64)
  && (N.lor (N.shiftl s0 2) (N.shiftr s1 4) =? n0)
  && (N.land s1 15 =? N.shiftr n1 4)
  && (N.shiftr s2 2 =? N.land n0 15)
  && (N.lor (N.shiftl (N.shiftr n0 4) 4) (N.land n0 15) =? n0)
  && (N.lor (N.shiftl (N.land s2 3) 6) (Base64.sextet3 n1) =? n1).

(* ===================================================================== *)
(** * Theorems: octets and exhaustive checks                              *)
(* ===================================================================== *)

Lemma byte_of_to_N (b : byte) : byte_of_N (Byte.to_N b) = b.
Proof.
  unfold byte_of_N.
  pose proof (Byte.to_N_bounded b) as Hb.
  rewrite N.mod_small by lia.
  now rewrite Byte.of_to_N.
Qed.

Lemma to_N_lt_256 (b : byte) : Byte.to_N b < 256.
Proof. pose proof (Byte.to_N_bounded b). lia. Qed.

Lemma to_N_inj (a b : byte) : Byte.to_N a = Byte.to_N b -> a = b.
Proof.
  intros H. rewrite <- (byte_of_to_N a), <- (byte_of_to_N b). now rewrite H.
Qed.

Lemma below_In (n : nat) (x : N) : x < N.of_nat n -> In x (below n).
Proof.
  intros H. unfold below. apply in_map_iff.
  exists (N.to_nat x). split; [apply N2Nat.id|].
  apply in_seq. lia.
Qed.

Lemma forall_below (n : nat) (p : N -> bool) :
  forallb p (below n) = true -> forall x, x < N.of_nat n -> p x = true.
Proof.
  intros H x Hx. rewrite forallb_forall in H. apply H. now apply below_In.
Qed.

Lemma forall_below2 (n m : nat) (p : N -> N -> bool) :
  forallb (fun a => forallb (p a) (below m)) (below n) = true ->
  forall a b, a < N.of_nat n -> b < N.of_nat m -> p a b = true.
Proof.
  intros H a b Ha Hb.
  pose proof (forall_below n _ H a Ha) as H1. cbv beta in H1.
  exact (forall_below m _ H1 b Hb).
Qed.

(* ===================================================================== *)
(** * base64: decoding undoes encoding                                    *)
(* ===================================================================== *)

Module Base64Facts.

Import Base64.

Lemma a2b_b2a (s : N) :
  s < 64 -> a2b (b2a s) = Some s /\ Byte.eqb (b2a s) pad = false.
Proof.
  intros Hs.
  assert (H : forallb (fun s =>
            match a2b (b2a s) with Some t => t =? s | None => false end
            && negb (Byte.eqb (b2a s) pad)) (below 64) = true)
    by (vm_compute; reflexivity).
  pose proof (forall_below 64 _ H s Hs) as Hc. cbv beta in Hc.
  apply andb_true_iff in Hc. destruct Hc as [H1 H2].
  destruct (a2b (b2a s)) as [t|]; [|discriminate].
  apply N.eqb_eq in H1. subst t.
  split; [reflexivity|]. now apply negb_true_iff in H2.
Qed.

Lemma pair_facts (n0 n1 : N) : n0 < 256 -> n1 < 256 ->
  sextet0 n0 < 64 /\ sextet1 n0 n1 < 64 /\ sextet2 n0 n1 < 64 /\
  sextet3 n0 < 64 /\
  N.lor (N.shiftl (sextet0 n0) 2) (N.shiftr (sextet1 n0 n1) 4) = n0 /\
  N.land (sextet1 n0 n1) 15 = N.shiftr n1 4 /\
  N.shiftr (sextet2 n0 n1) 2 = N.land n0 15 /\
  N.lor (N.shiftl (N.shiftr n0 4) 4) (N.land n0 15) = n0 /\
  N.lor (N.shiftl (N.land (sextet2 n0 n1) 3) 6) (sextet3 n1) = n1.
Proof.
  intros H0 H1.
  assert (H : forallb (fun a => forallb (pair_check a) (below 256)) (below 256)
              = true) by (vm_compute; reflexivity).
  pose proof (forall_below2 256 256 _ H n0 n1 H0 H1) as Hc.
  unfold pair_check in Hc.
  repeat (apply andb_true_iff in Hc; destruct Hc as [Hc ?]).
  repeat match goal with
         | H : (_ <? _) = true |- _ => apply N.ltb_lt in H
         | H : (_ =? _) = true |- _ => apply N.eqb_eq in H
         end.
  repeat apply conj; assumption.
Qed.

Lemma octet0_sextets (b0 b1 : byte) :
  octet0 (sextet0 (Byte.to_N b0)) (sextet1 (Byte.to_N b0) (Byte.to_N b1)) = b0.
Proof.
  unfold octet0.
  destruct (pair_facts _ _ (to_N_lt_256 b0) (to_N_lt_256 b1))
    as (_ & _ & _ & _ & H & _).
  rewrite H. apply byte_of_to_N.
Qed.

Lemma octet1_sextets (b0 b1 b2 : byte) :
  octet1 (sextet1 (Byte.to_N b0) (Byte.to_N b1))
         (sextet2 (Byte.to_N b1) (Byte.to_N b2)) = b1.
Proof.
  unfold octet1.
  destruct (pair_facts _ _ (to_N_lt_256 b0) (to_N_lt_256 b1))
    as (_ & _ & _ & _ & _ & H1 & _).
  destruct (pair_facts _ _ (to_N_lt_256 b1) (to_N_lt_256 b2))
    as (_ & _ & _ & _ & _ & _ & H2 & H3 & _).
  rewrite H1, H2, H3. apply byte_of_to_N.
Qed.

Lemma octet2_sextets (b1 b2 : byte) :
  octet2 (sextet2 (Byte.to_N b1) (Byte.to_N b2)) (sextet3 (Byte.to_N b2)) = b2.
Proof.
  unfold octet2.
  destruct (pair_facts _ _ (to_N_lt_256 b1) (to_N_lt_256 b2))
    as (_ & _ & _ & _ & _ & _ & _ & _ & H).
  rewrite H. apply byte_of_to_N.
Qed.

Lemma sextet_bounds (b0 b1 : byte) :
  sextet0 (Byte.to_N b0) < 64 /\
  sextet1 (Byte.to_N b0) (Byte.to_N b1) < 64 /\
  sextet2 (Byte.to_N b0) (Byte.to_N b1) < 64 /\
  sextet3 (Byte.to_N b0) < 64.
Proof.
  destruct (pair_facts _ _ (to_N_lt_256 b0) (to_N_lt_256 b1))
    as (H0 & H1 & H2 & H3 & _).
  auto.
Qed.

End Base64Facts.

Module Base64Roundtrip.

Import Base64 Base64Facts.

Lemma decode_step (b0 b1 b2 : byte) (rest tail : bytes) :
  urlsafe_b64decode (urlsafe_b64encode rest) = Some tail ->
  urlsafe_b64decode (urlsafe_b64encode (b0 :: b1 :: b2 :: rest))
  = Some (b0 :: b1 :: b2 :: tail).
Proof.
  intros IH.
  destruct (sextet_bounds b0 b1) as (B0 & B1 & _ & _).
  destruct (sextet_bounds b1 b2) as (_ & _ & B2 & _).
  destruct (sextet_bounds b2 b2) as (_ & _ & _ & B3).
  destruct (a2b_b2a _ B0) as [A0 _].
  destruct (a2b_b2a _ B1) as [A1 _].
  destruct (a2b_b2a _ B2) as [A2 P2].
  destruct (a2b_b2a _ B3) as [A3 P3].
  change (urlsafe_b64encode (b0 :: b1 :: b2 :: rest))
    with (b2a (sextet0 (Byte.to_N b0))
          :: b2a (sextet1 (Byte.to_N b0) (Byte.to_N b1))
          :: b2a (sextet2 (Byte.to_N b1) (Byte.to_N b2))
          :: b2a (sextet3 (Byte.to_N b2)) :: urlsafe_b64encode rest).
  cbn [urlsafe_b64decode].
  rewrite A0, A1, A2, A3, P3, IH.
  rewrite octet0_sextets, octet1_sextets, octet2_sextets.
  destruct (urlsafe_b64encode rest); reflexivity.
Qed.

Lemma decode_encode_aux (n : nat) : forall data : bytes,
  (length data <= n)%nat ->
  urlsafe_b64decode (urlsafe_b64encode data) = Some data.
Proof.
  induction n as [|n IH]; intros data Hlen.
  - destruct data; [reflexivity | simpl in Hlen; lia].
  - destruct data as [|b0 [|b1 [|b2 rest]]].
    + reflexivity.
    + destruct (sextet_bounds b0 x00) as (B0 & B1 & _ & _).
      destruct (a2b_b2a _ B0) as [A0 _].
      destruct (a2b_b2a _ B1) as [A1 _].
      change (Byte.to_N x00) with 0 in *.
      cbn [urlsafe_b64encode urlsafe_b64decode].
      rewrite A0, A1.
      change (Byte.eqb pad pad) with true. cbv iota.
      f_equal. f_equal. apply (octet0_sextets b0 x00).
    + destruct (sextet_bounds b0 b1) as (B0 & B1 & _ & _).
      destruct (sextet_bounds b1 x00) as (_ & _ & B2 & _).
      destruct (a2b_b2a _ B0) as [A0 _].
      destruct (a2b_b2a _ B1) as [A1 _].
      destruct (a2b_b2a _ B2) as [A2 P2].
      change (Byte.to_N x00) with 0 in *.
      cbn [urlsafe_b64encode urlsafe_b64decode].
      rewrite A0, A1, A2, P2.
      change (Byte.eqb pad pad) with true. cbv iota.
      f_equal. f_equal; [apply octet0_sextets|].
      f_equal. apply (octet1_sextets b0 b1 x00).
    + apply decode_step. apply IH. simpl in Hlen. lia.
Qed.

(** Decoding undoes encoding. *)
Lemma urlsafe_b64decode_encode (data : bytes) :
  urlsafe_b64decode (urlsafe_b64encode data) = Some data.
Proof. apply (decode_encode_aux (length data)). lia. Qed.

End Base64Roundtrip.

(* ===================================================================== *)
(** * hashlib: the digests have the declared length                       *)
(* ===================================================================== *)

Module HashFacts.

Import Hashlib.

Lemma sha256_digest_length (m : bytes) : length (sha256_digest m) = 32%nat.
Proof.
  unfold sha256_digest.
  destruct (md_run compress256 init256 m) as [[[[[[[a b] c] d] e] f] g] h].
  reflexivity.
Qed.

Lemma sha1_digest_length (m : bytes) : length (sha1_digest m) = 20%nat.
Proof.
  unfold sha1_digest.
  destruct (md_run compress1 init1 m) as [[[[a b] c] d] e].
  reflexivity.
Qed.

Lemma sha256_ok : hash_ok sha256.
Proof. split; [cbn; lia | exact sha256_digest_length]. Qed.

Lemma sha1_ok : hash_ok sha1.
Proof. split; [cbn; lia | exact sha1_digest_length]. Qed.

End HashFacts.

(* ===================================================================== *)
(** * PasswordManager.get_encryption_key                                  *)
(* ===================================================================== *)

Lemma utf8_char_ascii (c : N) : c < 128 -> utf8_char c = Some [byte_of_N c].
Proof.
  intros H. unfold utf8_char.
  destruct (N.ltb_spec c 0x80) as [_|H']; [reflexivity | lia].
Qed.

Lemma encode_ascii (s : str) :
  Forall (fun c => c < 128) s -> encode s = Ok (map byte_of_N s).
Proof.
  induction 1 as [|c s Hc _ IH]; [reflexivity|].
  cbn [encode map]. now rewrite (utf8_char_ascii c Hc), IH.
Qed.

Lemma format_left_length (width : nat) (s : str) :
  (length s <= width)%nat -> length (format_left width s) = width.
Proof.
  intros H. unfold format_left. rewrite length_app, repeat_length. lia.
Qed.

Lemma format_left_ascii (width : nat) (s : str) :
  Forall (fun c => c < 128) s -> Forall (fun c => c < 128) (format_left width s).
Proof.
  intros H. unfold format_left. apply Forall_app. split; [exact H|].
  apply Forall_forall. intros c Hc. apply repeat_spec in Hc. subst c.
  reflexivity.
Qed.

(** C1, as amended: for a secret of at most 32 characters, all of them
    ASCII, get_encryption_key returns (without touching the entropy source)
    the URL-safe base64 encoding of the secret right-padded with spaces to
    32 characters; the key decodes to exactly these 32 octets. *)
Theorem get_encryption_key_pads_short_ascii `{P : Platform}
    (secret : str) (g : Rng) :
  (length secret <= 32)%nat ->
  Forall (fun c => c < 128) secret ->
  let raw := map byte_of_N (format_left 32 secret) in
  get_encryption_key secret g = (Ok (Base64.urlsafe_b64encode raw), g) /\
  Base64.urlsafe_b64decode (Base64.urlsafe_b64encode raw) = Some raw /\
  length raw = 32%nat.
Proof.
  intros Hlen Hascii raw.
  split; [|split].
  - unfold get_encryption_key, bind, lift, ret.
    apply Nat.leb_le in Hlen. rewrite Hlen.
    apply Nat.leb_le in Hlen.
    unfold slice_to.
    rewrite <- (format_left_length 32 secret Hlen) at 1.
    rewrite firstn_all.
    now rewrite (encode_ascii _ (format_left_ascii 32 secret Hascii)).
  - apply Base64Roundtrip.urlsafe_b64decode_encode.
  - unfold raw. rewrite length_map. now apply format_left_length.
Qed.

(** The theorem applies to the secret "short". *)
Lemma get_encryption_key_pads_short_ascii_witness :
  let raw := map byte_of_N (format_left 32 (str_of "short")) in
  get_encryption_key (P := Reference.platform) (str_of "short") 7
  = (Ok (Base64.urlsafe_b64encode raw), 7) /\
  Base64.urlsafe_b64decode (Base64.urlsafe_b64encode raw) = Some raw /\
  length raw = 32%nat.
Proof.
  apply (get_encryption_key_pads_short_ascii (P := Reference.platform)).
  - simpl. lia.
  - repeat constructor.
Defined.

(** C1 fails as stated, in two ways.  The one-character secret "é"
    (U+00E9) is padded to 32 characters, which encode to 33 octets; and a
    secret of forty characters is encoded as it is, so that the key decodes
    to forty octets. *)
Lemma get_encryption_key_not_32_octets :
  let key1 := bytes_of "w6kgICAgICAgICAgICAgICAgICAgICAgICAgICAgICAg" in
  let raw1 := [xc3; xa9] ++ repeat " "%byte 31 in
  let key2 := bytes_of "eHh4eHh4eHh4eHh4eHh4eHh4eHh4eHh4eHh4eHh4eHh4eHh4eHh4eA==" in
  let raw2 := repeat "x"%byte 40 in
  (get_encryption_key (P := Reference.platform) [0xE9] 7 = (Ok key1, 7) /\
   Base64.urlsafe_b64decode key1 = Some raw1 /\
   length raw1 = 33%nat) /\
  (get_encryption_key (P := Reference.platform) (repeat 0x78 40) 7
   = (Ok key2, 7) /\
   Base64.urlsafe_b64decode key2 = Some raw2 /\
   length raw2 = 40%nat).
Proof. repeat apply conj; vm_compute; reflexivity. Qed.

(* ===================================================================== *)
(** * salted_hmac                                                         *)
(* ===================================================================== *)

Section SaltedHmac.

Context {P : Platform}.

Import Hashlib.

(** A name that hashlib does not have is rejected with InvalidAlgorithm,
    and nothing else is. *)
Lemma salted_hmac_InvalidAlgorithm_iff (key_salt value : PyObj)
    (secret : option PyObj) (algorithm : string) (g : Rng) :
  hashlib_getattr algorithm = None <->
  salted_hmac key_salt value secret algorithm g
  = (Raise (InvalidAlgorithm algorithm), g).
Proof.
  unfold salted_hmac, bind, lift, ret, raise.
  destruct (hashlib_getattr algorithm) as [[h| | | |]|]; cbn;
    split; intros H; try reflexivity; discriminate H.
Qed.

(** An attribute of hashlib that cannot be called on the key material, or
    whose digest needs a length, makes salted_hmac fail with a TypeError. *)
Lemma salted_hmac_TypeError (key_salt value : PyObj)
    (secret : option PyObj) (algorithm : string) (a : attribute) (g : Rng) :
  hashlib_getattr algorithm = Some a ->
  a = AttrXof \/ a = AttrFunction \/ a = AttrData ->
  salted_hmac key_salt value secret algorithm g = (Raise TypeError, g).
Proof.
  intros Ha Hkind. unfold salted_hmac, bind, lift, ret, raise. rewrite Ha.
  destruct Hkind as [-> | [-> | ->]]; reflexivity.
Qed.

(** An attribute whose call returns an object without digest() makes
    salted_hmac fail with an AttributeError. *)
Lemma salted_hmac_AttributeError (key_salt value : PyObj)
    (secret : option PyObj) (algorithm : string) (g : Rng) :
  hashlib_getattr algorithm = Some AttrNoDigest ->
  salted_hmac key_salt value secret algorithm g = (Raise AttributeError, g).
Proof.
  intros Ha. unfold salted_hmac, bind, lift, ret, raise. now rewrite Ha.
Qed.

(** The run of salted_hmac on the name of a hash constructor. *)
Lemma salted_hmac_run (key_salt value : PyObj) (secret : option PyObj)
    (algorithm : string) (h : HashAlg) (g : Rng) :
  hashlib_getattr algorithm = Some (AttrHash h) ->
  salted_hmac key_salt value secret algorithm g
  = (Ok (Hmac.new
           (hdigest h (force_bytes key_salt
                       ++ force_bytes (resolved_secret secret)))
           (force_bytes value) h), g).
Proof.
  intros Ha. unfold salted_hmac, bind, lift, ret. rewrite Ha. cbn.
  destruct secret; reflexivity.
Qed.


(** HMAC hashes a key that is longer than a block of the hash. *)
Lemma hmac_long_key_is_hashed (h : HashAlg) (k msg : bytes) :
  hash_ok h ->
  (digest_size h <= block_size h)%nat ->
  (block_size h < length k)%nat ->
  Hmac.hmac_digest h (hdigest h k) msg = Hmac.hmac_digest h k msg.
Proof.
  intros [_ Hlen] Hsize Hlong.
  unfold Hmac.hmac_digest, Hmac.block_key.
  rewrite (Hlen k).
  apply Nat.ltb_lt in Hlong. rewrite Hlong.
  destruct (Nat.ltb_spec (block_size h) (digest_size h)) as [Hlt|_]; [lia|].
  now rewrite (Hlen k).
Qed.

(** X1: the remark in salted_hmac.  When key_salt + secret is longer than
    a block of the hash, deriving the key changes nothing: the digest of
    the result is the HMAC of the value under key_salt + secret itself. *)
Theorem salted_hmac_long_key_material (key_salt value : PyObj)
    (secret : option PyObj) (algorithm : string) (h : HashAlg) (g : Rng) :
  hashlib_getattr algorithm = Some (AttrHash h) ->
  hash_ok h ->
  (digest_size h <= block_size h)%nat ->
  (block_size h
   < length (force_bytes key_salt ++ force_bytes (resolved_secret secret)))%nat ->
  exists m,
    salted_hmac key_salt value secret algorithm g = (Ok m, g) /\
    Hmac.digest m
    = Hmac.hmac_digest h
        (force_bytes key_salt ++ force_bytes (resolved_secret secret))
        (force_bytes value).
Proof.
  intros Ha Hok Hsize Hlong.
  eexists. split; [exact (salted_hmac_run _ _ _ _ _ _ Ha)|].
  unfold Hmac.digest, Hmac.new. cbn [Hmac.mac_alg Hmac.mac_key Hmac.mac_msg].
  now apply hmac_long_key_is_hashed.
Qed.

End SaltedHmac.


(** The theorem applies to sha256 and a salt of 70 octets. *)
Lemma salted_hmac_long_key_material_witness :
  let P := Reference.platform in
  exists m,
    salted_hmac (repeat "s"%byte 70) (bytes_of "value")
      (Some (bytes_of "secret")) "sha256" 7 = (Ok m, 7) /\
    Hmac.digest m
    = Hmac.hmac_digest Hashlib.sha256
        (force_bytes (repeat "s"%byte 70)
         ++ force_bytes (resolved_secret (Some (bytes_of "secret"))))
        (force_bytes (bytes_of "value")).
Proof.
  refine (salted_hmac_long_key_material (P := Reference.platform)
            (repeat "s"%byte 70) (bytes_of "value")
            (Some (bytes_of "secret")) "sha256" Hashlib.sha256 7
            eq_refl _ _ _).
  - split; [cbn; lia | exact HashFacts.sha256_digest_length].
  - cbn. lia.
  - cbn. lia.
Defined.

(** C2 fails on the code: "shake_128" names a hash function of hashlib
    and salted_hmac raises a TypeError for it; "algorithms_guaranteed" and
    "new" name no hash function and the error is a TypeError again, not
    InvalidAlgorithm.  A name that hashlib does not have at all is
    rejected with InvalidAlgorithm. *)
Lemma salted_hmac_TypeError_examples :
  let call := salted_hmac (P := Reference.platform) (bytes_of "salt")
                (bytes_of "value") (Some (bytes_of "secret")) in
  call "shake_128"%string 7 = (Raise TypeError, 7) /\
  call "algorithms_guaranteed"%string 7 = (Raise TypeError, 7) /\
  call "new"%string 7 = (Raise TypeError, 7) /\
  call "whatever"%string 7 = (Raise (InvalidAlgorithm "whatever"), 7).
Proof. repeat apply conj; reflexivity. Qed.

(** The digests of the model agree with those of the library. *)
Example sha256_abc :
  hex (Hashlib.sha256_digest (bytes_of "abc"))
  = "ba7816bf8f01cfea414140de5dae2223b00361a396177a9cb410ff61f20015ad"%string.
Proof. vm_compute. reflexivity. Qed.

Example sha1_abc :
  hex (Hashlib.sha1_digest (bytes_of "abc"))
  = "a9993e364706816aba3e25717850c26c9cd0d89d"%string.
Proof. vm_compute. reflexivity. Qed.

Example hmac_sha256_long_key :
  hex (Hmac.hmac_digest Hashlib.sha256 (repeat "k"%byte 100)
         (bytes_of "message"))
  = "1c28735416d320163f56f81bdbb83d651eed508d184e6b8b03662740a533293e"%string.
Proof. vm_compute. reflexivity. Qed.

Example salted_hmac_sha1_digest :
  match fst (salted_hmac (P := Reference.platform) (bytes_of "salt")
               (bytes_of "value") (Some (bytes_of "secret")) "sha1" 7) with
  | Ok m => hex (Hmac.digest m)
  | Raise _ => EmptyString
  end = "a82be9ba6efe61405ee8d2e8a3781c37e103360a"%string.
Proof. vm_compute. reflexivity. Qed.

(* ===================================================================== *)
(** * constant_time_compare                                               *)
(* ===================================================================== *)

Module CompareFacts.

Import Secrets.

(** A difference seen once is never forgotten. *)
Lemma tscmp_loop_nonzero (left right : bytes) (r : N) :
  r <> 0 -> tscmp_loop left right r <> 0.
Proof.
  revert left r.
  induction right as [|y right IH]; intros left r Hr; [exact Hr|].
  destruct left as [|x left]; [exact Hr|].
  cbn [tscmp_loop]. apply IH.
  intros H. apply N.lor_eq_0_iff in H. now destruct H.
Qed.

(** On operands of one length the loop ends in 0 exactly when nothing was
    different before and the operands are equal. *)
Lemma tscmp_loop_zero (left right : bytes) (r : N) :
  length left = length right ->
  (tscmp_loop left right r = 0 <-> r = 0 /\ left = right).
Proof.
  revert left r.
  induction right as [|y right IH]; intros left r Hlen.
  - destruct left; [|discriminate Hlen]. cbn. tauto.
  - destruct left as [|x left]; [discriminate Hlen|].
    injection Hlen as Hlen. cbn [tscmp_loop].
    rewrite (IH left _ Hlen), N.lor_eq_0_iff, N.lxor_eq_0_iff.
    split.
    + intros [[Hr Hxy] Htl]. apply to_N_inj in Hxy. now subst.
    + intros [Hr Heq]. injection Heq as Hx Htl. now subst.
Qed.

(** [compare_digest] decides equality of bytes. *)
Lemma compare_digest_true_iff (a b : bytes) :
  compare_digest a b = true <-> a = b.
Proof.
  unfold compare_digest.
  destruct (Nat.eqb_spec (length a) (length b)) as [Hlen|Hlen].
  - rewrite N.eqb_eq, (tscmp_loop_zero a b 0 Hlen). tauto.
  - split.
    + intros H. apply N.eqb_eq in H.
      now destruct (tscmp_loop_nonzero b b 1).
    + intros ->. now destruct Hlen.
Qed.

End CompareFacts.

Section ConstantTimeCompare.

Context {P : Platform}.

(** C4: constant_time_compare(x, x) is true for every x, and it is false
    for every x and y whose canonical byte representations differ, whether
    in content or in length; it neither raises nor draws entropy. *)
Theorem constant_time_compare_decides_equality :
  (forall (x : PyObj) (g : Rng), constant_time_compare x x g = (Ok true, g)) /\
  (forall (x y : PyObj) (g : Rng),
     force_bytes x <> force_bytes y ->
     constant_time_compare x y g = (Ok false, g)).
Proof.
  split.
  - intros x g. unfold constant_time_compare, ret.
    now rewrite (proj2 (CompareFacts.compare_digest_true_iff _ _) eq_refl).
  - intros x y g Hne. unfold constant_time_compare, ret.
    destruct (Secrets.compare_digest (force_bytes x) (force_bytes y)) eqn:E;
      [|reflexivity].
    apply CompareFacts.compare_digest_true_iff in E. now destruct Hne.
Qed.

End ConstantTimeCompare.

(** The theorem applies to operands of different lengths and to operands
    that differ in their last octet. *)
Lemma constant_time_compare_decides_equality_witness :
  constant_time_compare (P := Reference.platform)
    (bytes_of "secret") (bytes_of "secret!") 7 = (Ok false, 7) /\
  constant_time_compare (P := Reference.platform)
    (bytes_of "secret") (bytes_of "secres") 7 = (Ok false, 7) /\
  constant_time_compare (P := Reference.platform)
    (bytes_of "secret") (bytes_of "secret") 7 = (Ok true, 7).
Proof.
  pose proof (constant_time_compare_decides_equality
                (P := Reference.platform)) as [Hsame Hdiff].
  repeat apply conj.
  - apply Hdiff. cbn. discriminate.
  - apply Hdiff. cbn. discriminate.
  - apply Hsame.
Defined.

(* ===================================================================== *)
(** * PasswordManager.verify_and_update                                   *)
(* ===================================================================== *)

(** C9: with a password hash that is absent, verify_and_update returns
    (False, None) for every manager and every password; it does not raise
    and leaves the entropy source as it was. *)
Theorem verify_and_update_absent_hash `{L : Passlib}
    (hash_schemes : option (list string)) (password : PyObj) (g : Rng) :
  verify_and_update (init hash_schemes) password None g
  = (Ok (false, None), g).
Proof.
  unfold verify_and_update, CryptContext_verify_and_update, ret.
  reflexivity.
Qed.

(* ===================================================================== *)
(** * get_random_string and get_random_secret_key                         *)
(* ===================================================================== *)

Section RandomString.

Context {P : Platform}.

Hypothesis randbelow_bound : randbelow_ok P.

(** A choice from a sequence that is not empty is one of its elements. *)
Lemma choice_member (allowed_chars : str) (g : Rng) :
  allowed_chars <> [] ->
  exists c g',
    Secrets.choice Rng randbelow allowed_chars g = (Ok c, g') /\
    In c allowed_chars.
Proof.
  intros Hne. unfold Secrets.choice.
  destruct allowed_chars as [|c0 rest] eqn:E; [now destruct Hne|].
  rewrite <- E.
  assert (Hpos : 0 < N.of_nat (length allowed_chars))
    by (subst allowed_chars; cbn [length]; lia).
  pose proof (randbelow_bound _ g Hpos) as Hlt.
  destruct (randbelow (N.of_nat (length allowed_chars)) g) as [i g'].
  cbn [fst] in Hlt.
  destruct (nth_error allowed_chars (N.to_nat i)) as [c|] eqn:Hnth.
  - exists c, g'. split; [reflexivity|]. eapply nth_error_In, Hnth.
  - apply nth_error_None in Hnth. lia.
Qed.

(** [n] choices give [n] characters of the alphabet. *)
Lemma choices_spec (n : nat) (allowed_chars : str) :
  allowed_chars <> [] ->
  forall g, exists s g',
    choices n allowed_chars g = (Ok s, g') /\
    length s = n /\
    Forall (fun c => In c allowed_chars) s.
Proof.
  intros Hne. induction n as [|n IH]; intros g.
  - exists [], g. repeat apply conj; [reflexivity | reflexivity | constructor].
  - destruct (choice_member allowed_chars g Hne) as (c & g1 & Hc & Hin).
    destruct (IH g1) as (s & g2 & Hs & Hlen & Hall).
    exists (c :: s), g2.
    repeat apply conj.
    + cbn [choices]. unfold bind. rewrite Hc, Hs. reflexivity.
    + cbn [length]. now rewrite Hlen.
    + now constructor.
Qed.

End RandomString.

Lemma secret_key_chars_spec (c : N) :
  In c secret_key_chars <-> secret_key_char c = true.
Proof.
  split.
  - intros Hin.
    assert (H : forallb secret_key_char secret_key_chars = true)
      by (vm_compute; reflexivity).
    rewrite forallb_forall in H. now apply H.
  - intros Hc.
    assert (Hlt : c < 128).
    { unfold secret_key_char in Hc.
      apply orb_true_iff in Hc. destruct Hc as [Hc|Hc].
      - apply orb_true_iff in Hc.
        destruct Hc as [Hc|Hc]; apply andb_true_iff in Hc;
          destruct Hc as [_ Hc]; apply N.leb_le in Hc; lia.
      - apply existsb_exists in Hc. destruct Hc as (x & Hx & Hcx).
        apply N.eqb_eq in Hcx. subst x.
        assert (H : forallb (fun x => x <? 128) (str_of "!@#$%^&*(-_=+)")
                    = true) by (vm_compute; reflexivity).
        rewrite forallb_forall in H. apply N.ltb_lt. now apply H. }
    assert (H : forallb (fun x => implb (secret_key_char x)
                                    (existsb (N.eqb x) secret_key_chars))
                  (below 128) = true) by (vm_compute; reflexivity).
    pose proof (forall_below 128 _ H c Hlt) as Hi. cbv beta in Hi.
    rewrite Hc in Hi. cbn [implb] in Hi.
    apply existsb_exists in Hi. destruct Hi as (x & Hx & Hcx).
    apply N.eqb_eq in Hcx. now subst x.
Qed.

(** C7: for a positive length and an alphabet that is not empty,
    get_random_string returns a string of exactly [length] characters, each
    of them a member of the alphabet; get_random_secret_key does the same
    over its own alphabet of lowercase letters, digits and punctuation. *)
Theorem get_random_string_length_and_alphabet `{P : Platform}
    (length : Z) (allowed_chars : str) (g : Rng) :
  randbelow_ok P ->
  (0 < length)%Z ->
  allowed_chars <> [] ->
  (exists s g',
     get_random_string length allowed_chars g = (Ok s, g') /\
     Z.of_nat (List.length s) = length /\
     Forall (fun c => In c allowed_chars) s) /\
  (exists s g',
     get_random_secret_key length g = (Ok s, g') /\
     Z.of_nat (List.length s) = length /\
     Forall (fun c => secret_key_char c = true) s).
Proof.
  intros Hrand Hpos Hne. split.
  - destruct (choices_spec Hrand (Z.to_nat length) allowed_chars Hne g)
      as (s & g' & Hs & Hlen & Hall).
    exists s, g'. repeat apply conj; [exact Hs | lia | exact Hall].
  - assert (Hk : secret_key_chars <> []) by discriminate.
    destruct (choices_spec Hrand (Z.to_nat length) secret_key_chars Hk g)
      as (s & g' & Hs & Hlen & Hall).
    exists s, g'. repeat apply conj; [exact Hs | lia |].
    eapply Forall_impl; [|exact Hall].
    intros c Hc. now apply secret_key_chars_spec.
Qed.

(** The generator of the reference platform keeps the promise of
    [randbelow]. *)
Lemma reference_randbelow_ok : randbelow_ok Reference.platform.
Proof.
  intros n g Hn. cbn. apply N.mod_lt. lia.
Qed.

(** The theorem applies to twelve characters of the default alphabet. *)
Lemma get_random_string_length_and_alphabet_witness :
  let P := Reference.platform in
  (exists s g',
     get_random_string 12 RANDOM_STRING_CHARS 42 = (Ok s, g') /\
     Z.of_nat (List.length s) = 12%Z /\
     Forall (fun c => In c RANDOM_STRING_CHARS) s) /\
  (exists s g',
     get_random_secret_key 12 42 = (Ok s, g') /\
     Z.of_nat (List.length s) = 12%Z /\
     Forall (fun c => secret_key_char c = true) s).
Proof.
  apply (get_random_string_length_and_alphabet (P := Reference.platform)
           12 RANDOM_STRING_CHARS 42 reference_randbelow_ok).
  - reflexivity.
  - discriminate.
Defined.

(** Two states of the entropy source give two different strings: the
    result of get_random_string is not a function of its arguments. *)
Example get_random_string_depends_on_entropy :
  get_random_string (P := Reference.platform) 4 RANDOM_STRING_CHARS 42
  = (Ok (str_of "aVTr"), 1668674806) /\
  get_random_string (P := Reference.platform) 4 RANDOM_STRING_CHARS 4242424242
  = (Ok (str_of "goKd"), 1776994046).
Proof. split; vm_compute; reflexivity. Qed.

(** X4: with an empty alphabet and a positive length get_random_string
    fails with the IndexError of secrets.choice, before any entropy is
    drawn. *)
Theorem get_random_string_empty_alphabet `{P : Platform}
    (length : Z) (g : Rng) :
  (0 < length)%Z ->
  get_random_string length [] g = (Raise IndexError, g).
Proof.
  intros Hpos. unfold get_random_string.
  destruct (Z.to_nat length) as [|n] eqn:E; [lia|].
  reflexivity.
Qed.

(** The theorem applies to the length 5. *)
Lemma get_random_string_empty_alphabet_witness :
  get_random_string (P := Reference.platform) 5 [] 42 = (Raise IndexError, 42).
Proof.
  apply (get_random_string_empty_alphabet (P := Reference.platform)).
  lia.
Defined.

(** C10: for a length that is zero or negative get_random_string returns
    the empty string, whatever the alphabet (the empty one included); it
    does not raise and draws nothing from the entropy source. *)
Theorem get_random_string_nonpositive_length `{P : Platform}
    (length : Z) (allowed_chars : str) (g : Rng) :
  (length <= 0)%Z ->
  get_random_string length allowed_chars g = (Ok [], g).
Proof.
  intros Hle. unfold get_random_string.
  replace (Z.to_nat length) with 0%nat by lia. reflexivity.
Qed.

(** The theorem applies to the length -3 and the empty alphabet. *)
Lemma get_random_string_nonpositive_length_witness :
  get_random_string (P := Reference.platform) (-3) [] 42 = (Ok [], 42).
Proof.
  apply (get_random_string_nonpositive_length (P := Reference.platform)).
  lia.
Defined.

(* ===================================================================== *)
(** * pbkdf2                                                              *)
(* ===================================================================== *)

Module Pbkdf2Facts.

Import Hashlib Hmac.

Lemma xor_bytes_length (a b : bytes) (n : nat) :
  length a = n -> length b = n -> length (xor_bytes a b) = n.
Proof.
  intros Ha Hb. unfold xor_bytes. rewrite length_map, length_combine. lia.
Qed.

Lemma hmac_digest_length (h : HashAlg) (key msg : bytes) :
  hash_ok h -> length (hmac_digest h key msg) = digest_size h.
Proof. intros [_ Hlen]. unfold hmac_digest. apply Hlen. Qed.

Lemma pbkdf2_iter_length (prf : bytes -> bytes) (n : nat) (c : nat) :
  (forall u, length (prf u) = n) ->
  forall u acc, length acc = n -> length (pbkdf2_iter prf c u acc) = n.
Proof.
  intros Hprf. induction c as [|c IH]; intros u acc Hacc; [exact Hacc|].
  cbn [pbkdf2_iter]. apply IH. now apply xor_bytes_length.
Qed.

Lemma pbkdf2_block_length (prf : bytes -> bytes) (n : nat)
    (salt : bytes) (c i : nat) :
  (forall u, length (prf u) = n) ->
  length (pbkdf2_block prf salt c i) = n.
Proof.
  intros Hprf. unfold pbkdf2_block. now apply pbkdf2_iter_length.
Qed.

Lemma flat_map_length_const {A B} (f : A -> list B) (n : nat) (l : list A) :
  (forall x, length (f x) = n) -> length (flat_map f l) = (n * length l)%nat.
Proof.
  intros Hf. induction l as [|x l IH]; cbn [flat_map length]; [lia|].
  rewrite length_app, Hf, IH. lia.
Qed.

(** Enough blocks are computed for [dklen] octets. *)
Lemma blocks_cover (dklen hlen : nat) :
  (0 < hlen)%nat -> (dklen <= hlen * ((dklen + hlen - 1) / hlen))%nat.
Proof.
  intros Hpos.
  pose proof (Nat.div_mod_eq (dklen + hlen - 1) hlen) as Hdm.
  pose proof (Nat.mod_upper_bound (dklen + hlen - 1) hlen) as Hub.
  lia.
Qed.

(** The derived key has the length that was asked for. *)
Lemma pbkdf2_key_length (h : HashAlg) (password salt : bytes) (c dklen : nat) :
  hash_ok h -> length (pbkdf2_key h password salt c dklen) = dklen.
Proof.
  intros Hok. unfold pbkdf2_key.
  apply firstn_length_le.
  rewrite (flat_map_length_const _ (digest_size h)).
  - rewrite length_seq. apply blocks_cover. apply Hok.
  - intros i. apply pbkdf2_block_length.
    intros u. now apply hmac_digest_length.
Qed.

Ltac split_tests :=
  repeat first
    [ progress cbn [andb negb]
    | match goal with
      | |- context [(?a <? ?b)%Z] => destruct (Z.ltb_spec a b); try lia
      | |- context [(?a <=? ?b)%Z] => destruct (Z.leb_spec a b); try lia
      end ].

(** The run of pbkdf2_hmac on arguments within its bounds. *)
Lemma pbkdf2_hmac_run (by_name : string -> option HashAlg) (name : string)
    (h : HashAlg) (password salt : bytes) (iterations dklen : Z) :
  by_name name = Some h ->
  octets_fit password -> octets_fit salt ->
  (1 <= iterations <= INT_MAX)%Z ->
  (1 <= dklen <= INT_MAX)%Z ->
  pbkdf2_hmac by_name name password salt iterations (Some dklen)
  = Ok (pbkdf2_key h password salt (Z.to_nat iterations) (Z.to_nat dklen)).
Proof.
  unfold octets_fit, pbkdf2_hmac, fits_long, INT_MAX, LONG_MIN, LONG_MAX.
  intros -> Hp Hs Hit Hdk. split_tests. reflexivity.
Qed.

Lemma pbkdf2_hmac_run_default (by_name : string -> option HashAlg)
    (name : string) (h : HashAlg) (password salt : bytes) (iterations : Z) :
  by_name name = Some h ->
  octets_fit password -> octets_fit salt ->
  (1 <= iterations <= INT_MAX)%Z ->
  (1 <= Z.of_nat (digest_size h) <= INT_MAX)%Z ->
  pbkdf2_hmac by_name name password salt iterations None
  = Ok (pbkdf2_key h password salt (Z.to_nat iterations) (digest_size h)).
Proof.
  unfold octets_fit, pbkdf2_hmac, fits_long, INT_MAX, LONG_MIN, LONG_MAX.
  intros -> Hp Hs Hit Hdk. split_tests. cbn. now rewrite Nat2Z.id.
Qed.

End Pbkdf2Facts.

Section Pbkdf2.

Context {P : Platform}.

Import Hashlib.

(** pbkdf2 is a function of the canonical forms of its arguments: the
    bytes of password and salt, the iteration count, the key length with 0
    read as absent, and the name of the digest.  The entropy source has no
    part in it. *)
Lemma pbkdf2_canonical (p1 p2 s1 s2 : PyObj) (iterations : Z)
    (dk1 dk2 : option Z) (d1 d2 : option HashAlg) (g1 g2 : Rng) :
  force_bytes p1 = force_bytes p2 ->
  force_bytes s1 = force_bytes s2 ->
  or_None dk1 = or_None dk2 ->
  hname (resolved_digest d1) = hname (resolved_digest d2) ->
  fst (pbkdf2 p1 s1 iterations dk1 d1 g1)
  = fst (pbkdf2 p2 s2 iterations dk2 d2 g2).
Proof.
  intros Hp Hs Hdk Hd. unfold pbkdf2, lift. cbn [fst].
  fold (resolved_digest d1). fold (resolved_digest d2).
  now rewrite Hp, Hs, Hdk, Hd.
Qed.

Lemma pbkdf2_frame (password salt : PyObj) (iterations : Z)
    (dklen : option Z) (digest : option HashAlg) (g : Rng) :
  snd (pbkdf2 password salt iterations dklen digest g) = g.
Proof. reflexivity. Qed.

(** C5: pbkdf2 is deterministic.  Two calls with identical arguments, in
    whatever states of the process, yield the identical outcome (the same
    bytes, or the same error), and a call leaves the state as it was. *)
Theorem pbkdf2_deterministic (password salt : PyObj) (iterations : Z)
    (dklen : option Z) (digest : option HashAlg) (g1 g2 : Rng) :
  fst (pbkdf2 password salt iterations dklen digest g1)
  = fst (pbkdf2 password salt iterations dklen digest g2) /\
  snd (pbkdf2 password salt iterations dklen digest g1) = g1 /\
  bind (pbkdf2 password salt iterations dklen digest)
    (fun k1 => bind (pbkdf2 password salt iterations dklen digest)
       (fun k2 => ret (k1, k2))) g1
  = bind (pbkdf2 password salt iterations dklen digest)
      (fun k => ret (k, k)) g1.
Proof.
  repeat apply conj.
  - now apply pbkdf2_canonical.
  - apply pbkdf2_frame.
  - unfold bind.
    pose proof (pbkdf2_frame password salt iterations dklen digest g1) as Hf.
    destruct (pbkdf2 password salt iterations dklen digest g1) as [r g'] eqn:E.
    cbn [snd] in Hf. subst g'.
    destruct r as [k|e]; [|reflexivity].
    now rewrite E.
Qed.

Lemma pbkdf2_unfold (password salt : PyObj) (iterations : Z)
    (dklen : option Z) (digest : option HashAlg) (g : Rng) :
  pbkdf2 password salt iterations dklen digest g
  = (Hmac.pbkdf2_hmac hashlib_by_name (hname (resolved_digest digest))
       (force_bytes password) (force_bytes salt) iterations (or_None dklen),
     g).
Proof. reflexivity. Qed.

Lemma or_None_nonzero (d : Z) : d <> 0%Z -> or_None (Some d) = Some d.
Proof. destruct d; [congruence | reflexivity | reflexivity]. Qed.

(** X2: for an iteration count and a key length [dklen] from 1 to INT_MAX
    and a password and a salt of at most INT_MAX octets, pbkdf2 returns a
    derived key of exactly [dklen] octets. *)
Theorem pbkdf2_key_length_dklen (password salt : PyObj) (iterations dklen : Z)
    (digest : option HashAlg) (g : Rng) :
  (0 < iterations <= Hmac.INT_MAX)%Z ->
  (0 < dklen <= Hmac.INT_MAX)%Z ->
  octets_fit (force_bytes password) ->
  octets_fit (force_bytes salt) ->
  hashlib_by_name (hname (resolved_digest digest))
  = Some (resolved_digest digest) ->
  hash_ok (resolved_digest digest) ->
  exists dk,
    pbkdf2 password salt iterations (Some dklen) digest g = (Ok dk, g) /\
    Z.of_nat (length dk) = dklen.
Proof.
  intros Hit Hdk Hp Hs Hname Hok.
  rewrite pbkdf2_unfold, or_None_nonzero by lia.
  rewrite (Pbkdf2Facts.pbkdf2_hmac_run _ _ _ _ _ _ _ Hname Hp Hs) by lia.
  eexists. split; [reflexivity|].
  rewrite Pbkdf2Facts.pbkdf2_key_length by exact Hok. lia.
Qed.

(** C6, as amended: for an iteration count from 1 to INT_MAX = 2^31 - 1 and
    a password and a salt of at most INT_MAX octets, pbkdf2 with [dklen] 0
    or unset returns a derived key whose length is the digest size of the
    digest in use, which is 32 octets for the default digest sha256. *)
Theorem pbkdf2_default_key_length (password salt : PyObj) (iterations : Z)
    (dklen : option Z) (digest : option HashAlg) (g : Rng) :
  (0 < iterations <= Hmac.INT_MAX)%Z ->
  octets_fit (force_bytes password) ->
  octets_fit (force_bytes salt) ->
  dklen = None \/ dklen = Some 0%Z ->
  hashlib_by_name (hname (resolved_digest digest))
  = Some (resolved_digest digest) ->
  hash_ok (resolved_digest digest) ->
  (Z.of_nat (digest_size (resolved_digest digest)) <= Hmac.INT_MAX)%Z ->
  exists dk,
    pbkdf2 password salt iterations dklen digest g = (Ok dk, g) /\
    length dk = digest_size (resolved_digest digest) /\
    (digest = None -> length dk = 32%nat).
Proof.
  intros Hit Hp Hs Hdk Hname Hok Hsize.
  assert (Hnone : or_None dklen = None) by (destruct Hdk; subst; reflexivity).
  rewrite pbkdf2_unfold, Hnone.
  rewrite (Pbkdf2Facts.pbkdf2_hmac_run_default _ _ _ _ _ _ Hname Hp Hs)
    by (destruct Hok; lia).
  eexists. split; [reflexivity|].
  rewrite Pbkdf2Facts.pbkdf2_key_length by exact Hok.
  split; [reflexivity|].
  intros ->. reflexivity.
Qed.

(** X3: an iteration count that is zero or negative (and converts to a C
    long) makes pbkdf2 fail with a ValueError for a password and a salt of
    at most INT_MAX octets; no key is derived. *)
Theorem pbkdf2_rejects_nonpositive_iterations (password salt : PyObj)
    (iterations : Z) (dklen : option Z) (digest : option HashAlg) (g : Rng) :
  (Hmac.LONG_MIN <= iterations <= 0)%Z ->
  octets_fit (force_bytes password) ->
  octets_fit (force_bytes salt) ->
  pbkdf2 password salt iterations dklen digest g = (Raise ValueError, g).
Proof.
  intros Hit Hp Hs. rewrite pbkdf2_unfold. f_equal.
  unfold octets_fit, Hmac.pbkdf2_hmac, Hmac.fits_long, Hmac.INT_MAX,
    Hmac.LONG_MIN, Hmac.LONG_MAX in *.
  destruct (hashlib_by_name _) as [h|]; Pbkdf2Facts.split_tests; reflexivity.
Qed.

End Pbkdf2.

(** The bounds hold for the short passwords and salts of the examples. *)
Ltac fits := unfold octets_fit, Hmac.INT_MAX; cbn; lia.

(** The theorem applies to the default digest with [dklen] left at 0. *)
Lemma pbkdf2_default_key_length_witness :
  let P := Reference.platform in
  exists dk,
    pbkdf2 (bytes_of "password") (bytes_of "salt") 2 (Some 0%Z) None 7
    = (Ok dk, 7) /\
    length dk = 32%nat.
Proof.
  destruct (pbkdf2_default_key_length (P := Reference.platform)
              (bytes_of "password") (bytes_of "salt") 2 (Some 0%Z) None 7)
    as (dk & Hrun & _ & Hdefault);
    [fits | fits | fits | now right | reflexivity | exact HashFacts.sha256_ok
     | fits |].
  exists dk. split; [exact Hrun | exact (Hdefault eq_refl)].
Defined.

(** C6 fails as stated: with the iteration count 2^31, which is positive,
    pbkdf2 raises an OverflowError and returns no key. *)
Lemma pbkdf2_iterations_above_INT_MAX :
  pbkdf2 (P := Reference.platform) (bytes_of "password") (bytes_of "salt")
    2147483648 (Some 0%Z) None 7 = (Raise OverflowError, 7).
Proof. vm_compute. reflexivity. Qed.

(** The derived keys of the model agree with those of the library. *)
Example pbkdf2_sha256_two_iterations :
  match fst (pbkdf2 (P := Reference.platform) (bytes_of "password")
               (bytes_of "salt") 2 (Some 0%Z) None 7) with
  | Ok dk => hex dk
  | Raise _ => EmptyString
  end = "ae4d0c95af6b46d32d0adff928f06dd02a303f8ef3c251dfd6e2d85a95474c43"%string.
Proof. vm_compute. reflexivity. Qed.

Example pbkdf2_sha1_forty_octets :
  match fst (pbkdf2 (P := Reference.platform) (bytes_of "password")
               (bytes_of "salt") 3 (Some 40%Z) (Some Hashlib.sha1) 7) with
  | Ok dk => hex dk
  | Raise _ => EmptyString
  end = "6b4e26125c25cf21ae35ead955f479ea2e71f6ff9e400029f04810eece31355533bb2ed348e604da"%string.
Proof. vm_compute. reflexivity. Qed.

(** The theorem applies to sha1 and forty octets, which take two blocks. *)
Lemma pbkdf2_key_length_dklen_witness :
  let P := Reference.platform in
  exists dk,
    pbkdf2 (bytes_of "password") (bytes_of "salt") 3 (Some 40%Z)
      (Some Hashlib.sha1) 7 = (Ok dk, 7) /\
    Z.of_nat (length dk) = 40%Z.
Proof.
  refine (pbkdf2_key_length_dklen (P := Reference.platform)
            (bytes_of "password") (bytes_of "salt") 3 40
            (Some Hashlib.sha1) 7 _ _ _ _ eq_refl HashFacts.sha1_ok);
    fits.
Defined.

(** The theorem applies to the iteration count 0. *)
Lemma pbkdf2_rejects_nonpositive_iterations_witness :
  pbkdf2 (P := Reference.platform) (bytes_of "password") (bytes_of "salt")
    0 None None 7 = (Raise ValueError, 7).
Proof.
  apply (pbkdf2_rejects_nonpositive_iterations (P := Reference.platform));
    [unfold Hmac.LONG_MIN; lia | fits | fits].
Defined.

(** Beyond the bounds the errors are OverflowErrors: an iteration count
    and a key length that do not convert to a C long, and a key length
    above INT_MAX. *)
Example pbkdf2_overflows :
  let run := pbkdf2 (P := Reference.platform) (bytes_of "password")
               (bytes_of "salt") in
  run (-9223372036854775809)%Z None None 7 = (Raise OverflowError, 7) /\
  run 1%Z (Some 2147483648%Z) None 7 = (Raise OverflowError, 7) /\
  run 2147483648%Z (Some (-1)%Z) None 7 = (Raise OverflowError, 7) /\
  run 1%Z (Some (-9223372036854775809)%Z) None 7 = (Raise OverflowError, 7) /\
  run (-9223372036854775808)%Z None None 7 = (Raise ValueError, 7).
Proof. repeat apply conj; vm_compute; reflexivity. Qed.

(* ===================================================================== *)
(** * More on get_encryption_key                                          *)
(* ===================================================================== *)

Lemma utf8_char_None_iff (c : N) : utf8_char c = None <-> unencodable c.
Proof.
  unfold utf8_char, unencodable.
  destruct (N.ltb_spec c 0x80); [split; [discriminate | lia]|].
  destruct (N.ltb_spec c 0x800); [split; [discriminate | lia]|].
  destruct (N.ltb_spec c 0x10000).
  - destruct (N.leb_spec 0xD800 c); destruct (N.leb_spec c 0xDFFF); cbn;
      split; try discriminate; try lia; intros _; try reflexivity; lia.
  - destruct (N.ltb_spec c 0x110000); [split; [discriminate | lia]|].
    split; [intros _; lia | reflexivity].
Qed.

Lemma utf8_char_nonempty (c : N) (bs : bytes) :
  utf8_char c = Some bs -> (1 <= length bs)%nat.
Proof.
  unfold utf8_char. intros H.
  apply (f_equal (fun o : option bytes =>
                    match o with Some l => length l | None => 1%nat end)) in H.
  cbv beta iota in H. rewrite <- H.
  repeat match goal with
         | |- context [if ?b then _ else _] => destruct b
         end; cbn [length]; lia.
Qed.

Lemma encode_raises_iff (s : str) :
  (exists c, In c s /\ utf8_char c = None) <-> encode s = Raise UnicodeEncodeError.
Proof.
  induction s as [|c s IH]; cbn [encode].
  - split; [intros (c & [] & _) | discriminate].
  - destruct (utf8_char c) as [bs|] eqn:Hc.
    + destruct (encode s) as [rest|e] eqn:Hs.
      * split; [|discriminate].
        intros (x & [<-|Hin] & Hx); [congruence|].
        assert (H : Ok rest = Raise UnicodeEncodeError)
          by (apply IH; eauto).
        discriminate H.
      * split.
        -- intros (x & [<-|Hin] & Hx); [congruence|].
           f_equal. assert (H : Raise e = Raise UnicodeEncodeError)
             by (apply (proj1 IH); eauto).
           now injection H.
        -- intros H. injection H as ->.
           destruct (proj2 IH eq_refl) as (x & Hin & Hx).
           exists x. split; [now right | exact Hx].
    + split; [reflexivity|]. intros _. exists c. split; [now left | exact Hc].
Qed.

Lemma encode_total (s : str) :
  (exists raw, encode s = Ok raw /\ (length s <= length raw)%nat)
  \/ encode s = Raise UnicodeEncodeError.
Proof.
  induction s as [|c s IH]; cbn [encode].
  - left. exists []. split; [reflexivity | cbn; lia].
  - destruct (utf8_char c) as [bs|] eqn:Hc; [|now right].
    destruct IH as [(rest & -> & Hlen)| ->]; [|now right].
    left. exists (bs ++ rest). split; [reflexivity|].
    pose proof (utf8_char_nonempty c bs Hc).
    rewrite length_app. cbn [length]. lia.
Qed.

Lemma normalized_secret_length (secret : str) :
  (32 <= length (normalized_secret secret))%nat.
Proof.
  unfold normalized_secret, slice_to.
  destruct (Nat.leb_spec (length secret) 32) as [Hle|Hgt]; [|lia].
  rewrite firstn_all2 by (rewrite format_left_length; lia).
  rewrite format_left_length; lia.
Qed.

Lemma normalized_secret_In (secret : str) (c : N) :
  In c (normalized_secret secret) ->
  In c secret \/ c = space.
Proof.
  unfold normalized_secret, slice_to.
  destruct (Nat.leb_spec (length secret) 32) as [Hle|Hgt]; [|now left].
  rewrite firstn_all2 by (rewrite format_left_length; lia).
  intros Hin. unfold format_left in Hin.
  apply in_app_or in Hin. destruct Hin as [Hin|Hin]; [now left|].
  right. now apply repeat_spec in Hin.
Qed.

Lemma In_normalized_secret (secret : str) (c : N) :
  In c secret -> In c (normalized_secret secret).
Proof.
  unfold normalized_secret, slice_to.
  destruct (Nat.leb_spec (length secret) 32) as [Hle|Hgt]; [|trivial].
  intros Hin.
  rewrite firstn_all2 by (rewrite format_left_length; lia).
  unfold format_left. apply in_or_app. now left.
Qed.

Lemma get_encryption_key_unfold `{P : Platform} (secret : str) (g : Rng) :
  get_encryption_key secret g
  = match encode (normalized_secret secret) with
    | Ok raw => (Ok (Base64.urlsafe_b64encode raw), g)
    | Raise e => (Raise e, g)
    end.
Proof.
  unfold get_encryption_key, normalized_secret, bind, lift, ret.
  destruct (length secret <=? 32)%nat;
    match goal with |- context [encode ?x] => destruct (encode x) end;
    reflexivity.
Qed.

(** X5: get_encryption_key fails exactly when the secret holds a code
    point that UTF-8 cannot encode (a lone surrogate), and the failure is
    a UnicodeEncodeError; the padding never causes one. *)
Theorem get_encryption_key_raises_iff `{P : Platform} (secret : str) (g : Rng) :
  (exists c, In c secret /\ unencodable c) <->
  get_encryption_key secret g = (Raise UnicodeEncodeError, g).
Proof.
  rewrite get_encryption_key_unfold. split.
  - intros (c & Hin & Hc).
    assert (H : encode (normalized_secret secret) = Raise UnicodeEncodeError).
    { apply encode_raises_iff. exists c. split.
      - now apply In_normalized_secret.
      - now apply utf8_char_None_iff. }
    now rewrite H.
  - intros H.
    destruct (encode (normalized_secret secret)) as [raw|e] eqn:He;
      [discriminate H|].
    injection H as ->.
    apply encode_raises_iff in He. destruct He as (c & Hin & Hc).
    exists c. apply utf8_char_None_iff in Hc.
    apply normalized_secret_In in Hin. destruct Hin as [Hin| ->]; [easy|].
    unfold unencodable, space in Hc. lia.
Qed.

(** The theorem applies to a secret that holds the surrogate U+D800. *)
Lemma get_encryption_key_raises_iff_witness :
  get_encryption_key (P := Reference.platform) (str_of "key" ++ [0xD800]) 7
  = (Raise UnicodeEncodeError, 7).
Proof.
  apply (proj1 (get_encryption_key_raises_iff (P := Reference.platform)
                  (str_of "key" ++ [0xD800]) 7)).
  exists 0xD800. split; [cbn; tauto | left; lia].
Defined.

(** X6: a key that get_encryption_key returns decodes (URL-safe base64)
    to the UTF-8 octets of the normalized secret, and these are never
    fewer than 32. *)
Theorem get_encryption_key_at_least_32_octets `{P : Platform}
    (secret : str) (g g' : Rng) (key : bytes) :
  get_encryption_key secret g = (Ok key, g') ->
  g' = g /\
  exists raw,
    Base64.urlsafe_b64decode key = Some raw /\
    encode (normalized_secret secret) = Ok raw /\
    (32 <= length raw)%nat.
Proof.
  rewrite get_encryption_key_unfold. intros H.
  destruct (encode_total (normalized_secret secret))
    as [(raw & He & Hlen)|He]; rewrite He in H; [|discriminate H].
  injection H as <- <-. split; [reflexivity|].
  exists raw. repeat apply conj.
  - apply Base64Roundtrip.urlsafe_b64decode_encode.
  - exact He.
  - pose proof (normalized_secret_length secret). lia.
Qed.

(** The theorem applies to the key of the secret "short". *)
Lemma get_encryption_key_at_least_32_octets_witness :
  let key :=
    Base64.urlsafe_b64encode (map byte_of_N (format_left 32 (str_of "short"))) in
  7 = 7 /\
  exists raw,
    Base64.urlsafe_b64decode key = Some raw /\
    encode (normalized_secret (str_of "short")) = Ok raw /\
    (32 <= length raw)%nat.
Proof.
  refine (get_encryption_key_at_least_32_octets (P := Reference.platform)
            (str_of "short") 7 7 _ _).
  vm_compute. reflexivity.
Defined.

(** X7: secrets of at most 32 characters that differ only in spaces at
    the end have the same key. *)
Theorem get_encryption_key_ignores_trailing_spaces `{P : Platform}
    (secret : str) (k : nat) (g : Rng) :
  (length secret + k <= 32)%nat ->
  get_encryption_key (secret ++ repeat space k) g
  = get_encryption_key secret g.
Proof.
  intros Hlen. rewrite !get_encryption_key_unfold.
  replace (normalized_secret (secret ++ repeat space k))
    with (normalized_secret secret); [reflexivity|].
  unfold normalized_secret, format_left.
  rewrite length_app, repeat_length.
  destruct (Nat.leb_spec (length secret + k) 32) as [_|H]; [|lia].
  destruct (Nat.leb_spec (length secret) 32) as [_|H]; [|lia].
  rewrite <- app_assoc, <- repeat_app. do 3 f_equal. lia.
Qed.

(** The theorem applies to "short" followed by three spaces. *)
Lemma get_encryption_key_ignores_trailing_spaces_witness :
  get_encryption_key (P := Reference.platform)
    (str_of "short" ++ repeat space 3) 7
  = get_encryption_key (P := Reference.platform) (str_of "short") 7.
Proof.
  apply (get_encryption_key_ignores_trailing_spaces
           (P := Reference.platform) (str_of "short") 3 7).
  cbn. lia.
Defined.

(* ===================================================================== *)
(** * More on salted_hmac                                                 *)
(* ===================================================================== *)

Section SaltedHmacMore.

Context {P : Platform}.

Import Hashlib.

Lemma salted_hmac_unfold (key_salt value : PyObj) (secret : option PyObj)
    (algorithm : string) (g : Rng) :
  salted_hmac key_salt value secret algorithm g
  = match hashlib_getattr algorithm with
    | None => (Raise (InvalidAlgorithm algorithm), g)
    | Some hasher =>
      match call_digest hasher
              (force_bytes key_salt ++ force_bytes (resolved_secret secret)) with
      | Ok key => (hmac_new key (force_bytes value) hasher, g)
      | Raise e => (Raise e, g)
      end
    end.
Proof.
  unfold salted_hmac, bind, lift, ret, raise.
  destruct (hashlib_getattr algorithm) as [hasher|]; [|reflexivity].
  destruct secret; reflexivity.
Qed.

(** X8: salted_hmac sees key_salt and secret only through the
    concatenation of their bytes, and the value only through its bytes:
    moving octets from the end of the salt to the start of the secret
    changes neither the result nor the error. *)
Theorem salted_hmac_depends_on_concatenation (ks1 ks2 v1 v2 : PyObj)
    (s1 s2 : option PyObj) (algorithm : string) (g : Rng) :
  force_bytes ks1 ++ force_bytes (resolved_secret s1)
  = force_bytes ks2 ++ force_bytes (resolved_secret s2) ->
  force_bytes v1 = force_bytes v2 ->
  salted_hmac ks1 v1 s1 algorithm g = salted_hmac ks2 v2 s2 algorithm g.
Proof.
  intros Hcat Hv. rewrite !salted_hmac_unfold. now rewrite Hcat, Hv.
Qed.

(** X9: for the name of a hash constructor the digest of the returned
    HMAC has the digest size of that hash. *)
Theorem salted_hmac_digest_length (key_salt value : PyObj)
    (secret : option PyObj) (algorithm : string) (h : HashAlg) (g : Rng) :
  hashlib_getattr algorithm = Some (AttrHash h) ->
  hash_ok h ->
  exists m,
    salted_hmac key_salt value secret algorithm g = (Ok m, g) /\
    length (Hmac.digest m) = digest_size h.
Proof.
  intros Ha Hok. eexists. split; [exact (salted_hmac_run _ _ _ _ _ _ Ha)|].
  unfold Hmac.digest, Hmac.new. cbn [Hmac.mac_alg Hmac.mac_key Hmac.mac_msg].
  now apply Pbkdf2Facts.hmac_digest_length.
Qed.

End SaltedHmacMore.

(** The theorem applies to the salts "ab" and "a" with the secrets "c" and
    "bc". *)
Lemma salted_hmac_depends_on_concatenation_witness :
  let P := Reference.platform in
  salted_hmac (bytes_of "ab") (bytes_of "value") (Some (bytes_of "c"))
    "sha256" 7
  = salted_hmac (bytes_of "a") (bytes_of "value") (Some (bytes_of "bc"))
      "sha256" 7.
Proof.
  exact (salted_hmac_depends_on_concatenation (P := Reference.platform)
           (bytes_of "ab") (bytes_of "a") (bytes_of "value") (bytes_of "value")
           (Some (bytes_of "c")) (Some (bytes_of "bc")) "sha256" 7
           eq_refl eq_refl).
Defined.

(** The theorem applies to sha1, whose digests have twenty octets. *)
Lemma salted_hmac_digest_length_witness :
  let P := Reference.platform in
  exists m,
    salted_hmac (bytes_of "salt") (bytes_of "value") None "sha1" 7
    = (Ok m, 7) /\
    length (Hmac.digest m) = Hashlib.digest_size Hashlib.sha1.
Proof.
  exact (salted_hmac_digest_length (P := Reference.platform)
           (bytes_of "salt") (bytes_of "value") None "sha1" Hashlib.sha1 7
           eq_refl HashFacts.sha1_ok).
Defined.

(* ===================================================================== *)
(** * More on get_random_string and constant_time_compare                 *)
(* ===================================================================== *)

Section RandomStringMore.

Context {P : Platform}.

Lemma choices_app (a b : nat) (allowed_chars : str) (g : Rng) :
  choices (a + b) allowed_chars g
  = bind (choices a allowed_chars)
      (fun x => bind (choices b allowed_chars) (fun y => ret (x ++ y))) g.
Proof.
  revert g. induction a as [|a IH]; intros g.
  - cbn [Nat.add choices]. unfold bind, ret.
    destruct (choices b allowed_chars g) as [[y|e] g']; reflexivity.
  - cbn [Nat.add choices]. unfold bind, ret in *.
    destruct (Secrets.choice Rng randbelow allowed_chars g) as [[c|e] g1];
      [|reflexivity].
    rewrite IH.
    destruct (choices a allowed_chars g1) as [[x|e] g2]; [|reflexivity].
    destruct (choices b allowed_chars g2) as [[y|e] g3]; reflexivity.
Qed.

(** X10: a string of [m + n] characters is a string of [m] characters
    followed by a string of [n] characters drawn right after it: the same
    result, the same error and the same entropy consumed. *)
Theorem get_random_string_concatenates (m n : Z) (allowed_chars : str)
    (g : Rng) :
  (0 <= m)%Z -> (0 <= n)%Z ->
  get_random_string (m + n) allowed_chars g
  = bind (get_random_string m allowed_chars)
      (fun x => bind (get_random_string n allowed_chars)
                  (fun y => ret (x ++ y))) g.
Proof.
  intros Hm Hn. unfold get_random_string.
  rewrite Z2Nat.inj_add by assumption. apply choices_app.
Qed.

(** X11: over an alphabet of one character nothing is left to chance: the
    result is that character [length] times. *)
Theorem get_random_string_single_character (length : Z) (c : N) (g : Rng) :
  randbelow_ok P ->
  exists g',
    get_random_string length [c] g = (Ok (repeat c (Z.to_nat length)), g').
Proof.
  intros Hrand.
  assert (Hne : [c] <> []) by discriminate.
  destruct (choices_spec Hrand (Z.to_nat length) [c] Hne g)
    as (s & g' & Hs & Hlen & Hall).
  exists g'. unfold get_random_string. rewrite Hs. do 2 f_equal.
  rewrite <- Hlen. clear Hs Hlen.
  induction Hall as [|x s Hx _ IH]; [reflexivity|].
  cbn [List.length repeat]. destruct Hx as [<-|[]]. f_equal. exact IH.
Qed.

(** X12: constant_time_compare is symmetric, although the comparison
    loop treats its operands differently. *)
Theorem constant_time_compare_symmetric (x y : PyObj) (g : Rng) :
  constant_time_compare x y g = constant_time_compare y x g.
Proof.
  unfold constant_time_compare, ret. do 2 f_equal.
  apply Bool.eq_true_iff_eq.
  rewrite !CompareFacts.compare_digest_true_iff. split; congruence.
Qed.

End RandomStringMore.

(** The theorem applies to 3 + 4 characters of the default alphabet. *)
Lemma get_random_string_concatenates_witness :
  let P := Reference.platform in
  get_random_string (3 + 4) RANDOM_STRING_CHARS 42
  = bind (get_random_string 3 RANDOM_STRING_CHARS)
      (fun x => bind (get_random_string 4 RANDOM_STRING_CHARS)
                  (fun y => ret (x ++ y))) 42.
Proof.
  apply (get_random_string_concatenates (P := Reference.platform)
           3 4 RANDOM_STRING_CHARS 42); lia.
Defined.

(** The theorem applies to five characters over the alphabet "x". *)
Lemma get_random_string_single_character_witness :
  let P := Reference.platform in
  exists g',
    get_random_string 5 (str_of "x") 42
    = (Ok (repeat 120 (Z.to_nat 5)), g').
Proof.
  exact (get_random_string_single_character (P := Reference.platform)
           5 120 42 reference_randbelow_ok).
Defined.

(* ===================================================================== *)
(** * More on pbkdf2                                                      *)
(* ===================================================================== *)

Module Pbkdf2More.

Import Hashlib Hmac.

Lemma blocks_mono (d1 d2 hlen : nat) :
  (d1 <= d2)%nat ->
  ((d1 + hlen - 1) / hlen <= (d2 + hlen - 1) / hlen)%nat.
Proof. intros H. apply Nat.Div0.div_le_mono. lia. Qed.

(** A shorter derived key is the beginning of a longer one. *)
Lemma pbkdf2_key_prefix (h : HashAlg) (password salt : bytes) (c d1 d2 : nat) :
  hash_ok h -> (d1 <= d2)%nat ->
  pbkdf2_key h password salt c d1
  = firstn d1 (pbkdf2_key h password salt c d2).
Proof.
  intros Hok Hle. unfold pbkdf2_key.
  set (F := pbkdf2_block (hmac_digest h password) salt c).
  set (l1 := ((d1 + digest_size h - 1) / digest_size h)%nat).
  set (l2 := ((d2 + digest_size h - 1) / digest_size h)%nat).
  assert (Hl : (l1 <= l2)%nat) by now apply blocks_mono.
  assert (HF : forall i, length (F i) = digest_size h).
  { intros i. apply Pbkdf2Facts.pbkdf2_block_length.
    intros u. now apply Pbkdf2Facts.hmac_digest_length. }
  rewrite firstn_firstn, Nat.min_l by exact Hle.
  replace l2 with (l1 + (l2 - l1))%nat by lia.
  rewrite seq_app, flat_map_app, firstn_app.
  rewrite (Pbkdf2Facts.flat_map_length_const F (digest_size h)) by exact HF.
  rewrite length_seq.
  assert (Hcover : (d1 <= digest_size h * l1)%nat)
    by (apply Pbkdf2Facts.blocks_cover; apply Hok).
  replace (d1 - digest_size h * l1)%nat with 0%nat by lia.
  now rewrite firstn_0, app_nil_r.
Qed.

Lemma pbkdf2_iter_ext (prf1 prf2 : bytes -> bytes) (n : nat) :
  (forall u, prf1 u = prf2 u) ->
  forall u acc, pbkdf2_iter prf1 n u acc = pbkdf2_iter prf2 n u acc.
Proof.
  intros Hext. induction n as [|n IH]; intros u acc; [reflexivity|].
  cbn [pbkdf2_iter]. now rewrite Hext, IH.
Qed.

Lemma pbkdf2_key_ext (h : HashAlg) (p1 p2 salt : bytes) (c dklen : nat) :
  (forall u, hmac_digest h p1 u = hmac_digest h p2 u) ->
  pbkdf2_key h p1 salt c dklen = pbkdf2_key h p2 salt c dklen.
Proof.
  intros Hext. unfold pbkdf2_key. f_equal.
  apply flat_map_ext. intros i. unfold pbkdf2_block.
  rewrite Hext. now apply pbkdf2_iter_ext.
Qed.

End Pbkdf2More.

Section Pbkdf2MoreTheorems.

Context {P : Platform}.

Import Hashlib.

(** X13: keys derived with two lengths from the same inputs are not
    independent: within the bounds of pbkdf2_hmac, the shorter one is the
    beginning of the longer one. *)
Theorem pbkdf2_shorter_key_is_prefix (password salt : PyObj)
    (iterations d1 d2 : Z) (digest : option HashAlg) (g : Rng) :
  (0 < iterations <= Hmac.INT_MAX)%Z ->
  (0 < d1)%Z -> (d1 <= d2)%Z -> (d2 <= Hmac.INT_MAX)%Z ->
  octets_fit (force_bytes password) ->
  octets_fit (force_bytes salt) ->
  hashlib_by_name (hname (resolved_digest digest))
  = Some (resolved_digest digest) ->
  hash_ok (resolved_digest digest) ->
  exists k1 k2,
    pbkdf2 password salt iterations (Some d1) digest g = (Ok k1, g) /\
    pbkdf2 password salt iterations (Some d2) digest g = (Ok k2, g) /\
    k1 = firstn (Z.to_nat d1) k2.
Proof.
  intros Hit Hd1 Hd12 Hd2 Hp Hs Hname Hok.
  rewrite !pbkdf2_unfold, !or_None_nonzero by lia.
  rewrite !(Pbkdf2Facts.pbkdf2_hmac_run _ _ _ _ _ _ _ Hname Hp Hs) by lia.
  eexists. eexists. repeat apply conj; [reflexivity | reflexivity |].
  apply Pbkdf2More.pbkdf2_key_prefix; [exact Hok | lia].
Qed.

(** X14: a password longer than a block of the digest (and of at most
    INT_MAX octets) and the digest of that password are interchangeable:
    pbkdf2 derives the same key from both, or fails in the same way, since
    HMAC hashes a long key first. *)
Theorem pbkdf2_long_password_collides_with_its_digest (p1 p2 salt : PyObj)
    (iterations : Z) (dklen : option Z) (digest : option HashAlg) (g : Rng) :
  hashlib_by_name (hname (resolved_digest digest))
  = Some (resolved_digest digest) ->
  hash_ok (resolved_digest digest) ->
  (digest_size (resolved_digest digest)
   <= block_size (resolved_digest digest))%nat ->
  (block_size (resolved_digest digest) < length (force_bytes p1))%nat ->
  octets_fit (force_bytes p1) ->
  force_bytes p2 = hdigest (resolved_digest digest) (force_bytes p1) ->
  pbkdf2 p1 salt iterations dklen digest g
  = pbkdf2 p2 salt iterations dklen digest g.
Proof.
  intros Hname Hok Hsize Hlong Hfit Hp2.
  rewrite !pbkdf2_unfold. f_equal.
  assert (Hfit2 : octets_fit (force_bytes p2)).
  { unfold octets_fit in *. rewrite Hp2. destruct Hok as [_ Hlen].
    rewrite Hlen. lia. }
  unfold Hmac.pbkdf2_hmac. rewrite Hname.
  unfold octets_fit in Hfit, Hfit2.
  destruct (Z.ltb_spec Hmac.INT_MAX (Z.of_nat (length (force_bytes p1))));
    [lia|].
  destruct (Z.ltb_spec Hmac.INT_MAX (Z.of_nat (length (force_bytes p2))));
    [lia|].
  assert (Hkey : forall c d,
             Hmac.pbkdf2_key (resolved_digest digest) (force_bytes p1)
               (force_bytes salt) c d
             = Hmac.pbkdf2_key (resolved_digest digest) (force_bytes p2)
                 (force_bytes salt) c d).
  { intros c d. apply Pbkdf2More.pbkdf2_key_ext. intros u.
    rewrite Hp2. symmetry. now apply hmac_long_key_is_hashed. }
  destruct (negb (Hmac.fits_long iterations)); [reflexivity|].
  destruct (Hmac.INT_MAX <? Z.of_nat (length (force_bytes salt)))%Z;
    [reflexivity|].
  destruct (iterations <? 1)%Z; [reflexivity|].
  destruct (Hmac.INT_MAX <? iterations)%Z; [reflexivity|].
  destruct (or_None dklen) as [d|]; [destruct (Hmac.fits_long d)|];
    cbv beta iota; try reflexivity;
    repeat match goal with
           | |- context [if ?b then _ else _] => destruct b
           end; try reflexivity; now rewrite Hkey.
Qed.

(** X15: a negative [dklen] is not read as "unset": within the bounds of
    pbkdf2_hmac on the other arguments, pbkdf2 fails with a ValueError. *)
Theorem pbkdf2_rejects_negative_dklen (password salt : PyObj)
    (iterations dklen : Z) (digest : option HashAlg) (g : Rng) :
  (Hmac.LONG_MIN <= dklen < 0)%Z ->
  (Hmac.LONG_MIN <= iterations <= Hmac.INT_MAX)%Z ->
  octets_fit (force_bytes password) ->
  octets_fit (force_bytes salt) ->
  pbkdf2 password salt iterations (Some dklen) digest g
  = (Raise ValueError, g).
Proof.
  intros Hdk Hit Hp Hs.
  rewrite pbkdf2_unfold, or_None_nonzero by lia. f_equal.
  unfold octets_fit, Hmac.pbkdf2_hmac, Hmac.fits_long, Hmac.INT_MAX,
    Hmac.LONG_MIN, Hmac.LONG_MAX in *.
  destruct (hashlib_by_name _) as [h|]; Pbkdf2Facts.split_tests; reflexivity.
Qed.

End Pbkdf2MoreTheorems.

(** The theorem applies to keys of 16 and 40 octets under sha256. *)
Lemma pbkdf2_shorter_key_is_prefix_witness :
  let P := Reference.platform in
  exists k1 k2,
    pbkdf2 (bytes_of "password") (bytes_of "salt") 2 (Some 16%Z) None 7
    = (Ok k1, 7) /\
    pbkdf2 (bytes_of "password") (bytes_of "salt") 2 (Some 40%Z) None 7
    = (Ok k2, 7) /\
    k1 = firstn (Z.to_nat 16) k2.
Proof.
  refine (pbkdf2_shorter_key_is_prefix (P := Reference.platform)
            (bytes_of "password") (bytes_of "salt") 2 16 40 None 7
            _ eq_refl _ _ _ _ eq_refl HashFacts.sha256_ok); fits.
Defined.

(** On the reference platform force_bytes returns bytes unchanged. *)
Lemma reference_force_bytes (b : bytes) :
  force_bytes (Platform := Reference.platform) b = b.
Proof. reflexivity. Qed.

(** The theorem applies to a password of seventy octets under sha256. *)
Lemma pbkdf2_long_password_collides_with_its_digest_witness :
  let P := Reference.platform in
  pbkdf2 (repeat "p"%byte 70) (bytes_of "salt") 2 None None 7
  = pbkdf2 (Hashlib.hdigest (resolved_digest None)
              (force_bytes (repeat "p"%byte 70)))
      (bytes_of "salt") 2 None None 7.
Proof.
  refine (pbkdf2_long_password_collides_with_its_digest
            (P := Reference.platform) (repeat "p"%byte 70)
            (Hashlib.hdigest (resolved_digest None)
               (force_bytes (Platform := Reference.platform)
                  (repeat "p"%byte 70)))
            (bytes_of "salt") 2 None None 7 eq_refl HashFacts.sha256_ok _ _ _
            (reference_force_bytes _)).
  - cbn. lia.
  - cbn. lia.
  - fits.
Defined.

(** The theorem applies to the key length -1. *)
Lemma pbkdf2_rejects_negative_dklen_witness :
  pbkdf2 (P := Reference.platform) (bytes_of "password") (bytes_of "salt")
    2 (Some (-1)%Z) None 7 = (Raise ValueError, 7).
Proof.
  apply (pbkdf2_rejects_negative_dklen (P := Reference.platform));
    [unfold Hmac.LONG_MIN; lia | unfold Hmac.LONG_MIN, Hmac.INT_MAX; lia
     | fits | fits].
Defined.

(* ===================================================================== *)
(** * str methods: facts                                                  *)
(* ===================================================================== *)

Module PyStrFacts.

Import PyStr.

Lemma eqb_eq (a b : str) : eqb a b = true <-> a = b.
Proof.
  revert b. induction a as [|x a IH]; intros [|y b]; cbn [eqb];
    try (split; [discriminate | discriminate]); [tauto|].
  rewrite andb_true_iff, N.eqb_eq, IH. split.
  - intros [-> ->]. reflexivity.
  - intros H. injection H as -> ->. tauto.
Qed.

Lemma mem_In (x : str) (items : list str) : mem x items = true <-> In x items.
Proof.
  unfold mem. rewrite existsb_exists. split.
  - intros (y & Hin & Heq). apply eqb_eq in Heq. now subst.
  - intros Hin. exists x. split; [exact Hin | now apply eqb_eq].
Qed.

Lemma split_nonempty (sep : N) (s : str) : split sep s <> [].
Proof.
  destruct s as [|c s]; cbn [split]; [discriminate|].
  destruct (c =? sep); [discriminate|].
  destruct (split sep s); discriminate.
Qed.

(** An item without separator, then a separator, then the rest. *)
Lemma split_app_sep (sep : N) (a rest : str) :
  ~ In sep a -> split sep (a ++ sep :: rest) = a :: split sep rest.
Proof.
  induction a as [|c a IH]; intros Hno.
  - cbn [app split]. now rewrite N.eqb_refl.
  - cbn [app split].
    destruct (N.eqb_spec c sep) as [->|_]; [destruct Hno; now left|].
    rewrite IH by (intros H; apply Hno; now right). reflexivity.
Qed.

Lemma split_no_sep (sep : N) (a : str) : ~ In sep a -> split sep a = [a].
Proof.
  induction a as [|c a IH]; intros Hno; [reflexivity|].
  cbn [split].
  destruct (N.eqb_spec c sep) as [->|_]; [destruct Hno; now left|].
  rewrite IH by (intros H; apply Hno; now right). reflexivity.
Qed.

(** Splitting undoes joining. *)
Lemma split_join (sep : N) (items : list str) :
  items <> [] ->
  Forall (fun item => ~ In sep item) items ->
  split sep (join [sep] items) = items.
Proof.
  intros Hne Hall. induction Hall as [|item items Hitem Hall IH];
    [now destruct Hne|].
  destruct items as [|item' items].
  - cbn [join]. now apply split_no_sep.
  - change (join [sep] (item :: item' :: items))
      with (item ++ sep :: join [sep] (item' :: items)).
    rewrite split_app_sep by exact Hitem.
    now rewrite IH by discriminate.
Qed.

Lemma lstrip_app_space (ws x : str) :
  forallb isspace ws = true -> lstrip (ws ++ x) = lstrip x.
Proof.
  induction ws as [|c ws IH]; intros H; [reflexivity|].
  cbn [forallb] in H. apply andb_true_iff in H. destruct H as [Hc Hws].
  cbn [app lstrip]. rewrite Hc. now apply IH.
Qed.

Lemma lstrip_all_space (ws : str) : forallb isspace ws = true -> lstrip ws = [].
Proof.
  intros H. rewrite <- (app_nil_r ws). now rewrite lstrip_app_space.
Qed.

Lemma lstrip_length (s : str) : (length (lstrip s) <= length s)%nat.
Proof.
  induction s as [|c s IH]; cbn [lstrip length]; [lia|].
  destruct (isspace c); cbn [length]; lia.
Qed.

Lemma lstrip_same_length (s : str) :
  length (lstrip s) = length s -> lstrip s = s.
Proof.
  destruct s as [|c s]; [reflexivity|]. cbn [lstrip length].
  destruct (isspace c); [|reflexivity].
  pose proof (lstrip_length s). lia.
Qed.

Lemma rstrip_length (s : str) : (length (rstrip s) <= length s)%nat.
Proof.
  unfold rstrip. rewrite length_rev.
  pose proof (lstrip_length (rev s)) as H. now rewrite length_rev in H.
Qed.

(** A string that strip leaves alone is left alone at both ends. *)
Lemma strip_fixed (h : str) : strip h = h -> lstrip h = h /\ rstrip h = h.
Proof.
  unfold strip. intros H.
  assert (Hl : lstrip h = h).
  { apply lstrip_same_length.
    pose proof (rstrip_length (lstrip h)) as H1.
    pose proof (lstrip_length h) as H2.
    rewrite H in H1. lia. }
  split; [exact Hl|]. now rewrite Hl in H.
Qed.

Lemma forallb_rev {A} (f : A -> bool) (l : list A) :
  forallb f l = true -> forallb f (rev l) = true.
Proof.
  rewrite !forallb_forall. intros H x Hx. apply H. now apply in_rev.
Qed.

(** strip removes the whitespace written around a host. *)
Lemma strip_written (lead host trail : str) :
  forallb isspace lead = true ->
  forallb isspace trail = true ->
  strip host = host ->
  strip (lead ++ host ++ trail) = host.
Proof.
  intros Hlead Htrail Hhost.
  destruct (strip_fixed host Hhost) as [Hl Hr].
  unfold strip. rewrite lstrip_app_space by exact Hlead.
  destruct host as [|c host].
  - cbn [app]. now rewrite lstrip_all_space.
  - assert (Hc : isspace c = false).
    { cbn [lstrip] in Hl. destruct (isspace c); [|reflexivity].
      pose proof (lstrip_length host) as H. rewrite Hl in H.
      cbn [length] in H. lia. }
    replace (lstrip ((c :: host) ++ trail)) with ((c :: host) ++ trail)
      by (cbn [app lstrip]; now rewrite Hc).
    unfold rstrip in *. rewrite rev_app_distr.
    rewrite lstrip_app_space by now apply forallb_rev.
    exact Hr.
Qed.

Lemma isspace_comma : isspace XForwardedHost.comma = false.
Proof. reflexivity. Qed.

Lemma space_no_comma (ws : str) :
  forallb isspace ws = true -> ~ In XForwardedHost.comma ws.
Proof.
  rewrite forallb_forall. intros H Hin.
  apply H in Hin. now rewrite isspace_comma in Hin.
Qed.

End PyStrFacts.

(* ===================================================================== *)
(** * XForwardedHostMiddleware                                            *)
(* ===================================================================== *)

Section Middleware.

Context {F : Litestar}.

Import XForwardedHost.

(** X16: a comma-separated string of hosts, each written with any
    whitespace around it, gives exactly those hosts as trusted hosts, and
    always_trust tells whether "*" is one of them. *)
Theorem init_parses_comma_separated_hosts (items : list (str * str * str)) :
  items <> [] ->
  Forall item_ok items ->
  let self :=
    init (HostsStr (PyStr.join [comma] (map written_item items))) in
  trusted_hosts self = map item_host items /\
  (always_trust self = true <-> In (str_of "*") (map item_host items)).
Proof.
  intros Hne Hok self.
  assert (Hhosts : trusted_hosts self = map item_host items).
  { unfold self, init. cbn [trusted_hosts].
    rewrite PyStrFacts.split_join.
    - rewrite map_map. apply map_ext_in. intros [[lead host] trail] Hin.
      rewrite Forall_forall in Hok. apply Hok in Hin.
      destruct Hin as (Hl & Ht & Hs & _).
      now apply PyStrFacts.strip_written.
    - destruct items; [now destruct Hne | discriminate].
    - apply Forall_map. eapply Forall_impl; [|exact Hok].
      intros [[lead host] trail] (Hl & Ht & _ & Hc) Hin.
      cbn [written_item] in Hin.
      apply in_app_or in Hin. destruct Hin as [Hin|Hin];
        [now apply (PyStrFacts.space_no_comma lead)|].
      apply in_app_or in Hin. destruct Hin as [Hin|Hin]; [now apply Hc|].
      now apply (PyStrFacts.space_no_comma trail). }
  split; [exact Hhosts|].
  rewrite <- Hhosts. unfold self, init. cbn [always_trust trusted_hosts].
  apply PyStrFacts.mem_In.
Qed.

(** X17: the body of __call__, as the class writes it, hands the
    application the scope as it came in whenever the scope is neither http
    nor websocket, or the client is absent or not one of the trusted hosts
    while "*" is not trusted; the headers are not even looked at. *)
Theorem untrusted_request_is_not_rewritten {W A}
    (self : XForwardedHostMiddleware) (app : Scope -> Proc W A)
    (scope : Scope) :
  (PyStr.eqb (scope_type scope) (str_of "http")
   || PyStr.eqb (scope_type scope) (str_of "websocket") = false)
  \/ (always_trust self = false /\
      forall host port,
        scope_client scope = Some (host, port) ->
        ~ In host (trusted_hosts self)) ->
  rewrite self scope = Ok scope /\ original_call self app scope = app scope.
Proof.
  intros H.
  assert (Hr : rewrite self scope = Ok scope).
  { unfold rewrite. destruct H as [-> | [-> Hclient]]; [reflexivity|].
    destruct (_ || _); [|reflexivity].
    destruct (scope_client scope) as [[host port]|]; [|reflexivity].
    destruct (PyStr.mem host (trusted_hosts self)) eqn:Hm; [|reflexivity].
    apply PyStrFacts.mem_In in Hm. now destruct (Hclient host port eq_refl). }
  split; [exact Hr|]. unfold original_call. now rewrite Hr.
Qed.


(** X18: once "*" is one of the trusted hosts the client plays no part:
    two scopes that differ in the client only, one of them possibly with
    no client at all, get the same headers or the same error. *)
Theorem wildcard_trusts_every_client (hosts : hosts_arg)
    (type : str) (client1 client2 : option (str * Z)) (headers : RawHeaders) :
  In (str_of "*") (trusted_hosts (init hosts)) ->
  rewritten_headers (init hosts)
    {| scope_type := type; scope_client := client1; scope_headers := headers |}
  = rewritten_headers (init hosts)
      {| scope_type := type; scope_client := client2;
         scope_headers := headers |}.
Proof.
  intros Hin.
  assert (Htrust : always_trust (init hosts) = true)
    by (unfold init; cbn [always_trust]; now apply PyStrFacts.mem_In).
  unfold rewritten_headers, rewrite. cbn [scope_type scope_client scope_headers].
  rewrite Htrust. cbn [orb].
  destruct (_ || _); [|reflexivity].
  destruct (headers_contains headers _) as [[|]|e]; try reflexivity.
  destruct (headers_getitem headers _) as [v|e]; [|reflexivity].
  destruct (headers_update headers _ v) as [raw|e]; reflexivity.
Qed.

End Middleware.

(** The theorem applies to the string "127.0.0.1, 10.0.0.1 ,*". *)
Lemma init_parses_comma_separated_hosts_witness :
  let items :=
    [([], str_of "127.0.0.1", []);
     (str_of " ", str_of "10.0.0.1", str_of " ");
     ([], str_of "*", [])] in
  let self :=
    XForwardedHost.init
      (XForwardedHost.HostsStr
         (PyStr.join [XForwardedHost.comma] (map written_item items))) in
  XForwardedHost.trusted_hosts self = map item_host items /\
  (XForwardedHost.always_trust self = true <->
   In (str_of "*") (map item_host items)).
Proof.
  refine (init_parses_comma_separated_hosts _ _ _); [discriminate|].
  repeat constructor; try (intros H; cbn in H; intuition discriminate).
Defined.

(** The theorem applies to a request from 10.0.0.9 to a middleware that
    trusts 127.0.0.1 only. *)
Lemma untrusted_request_is_not_rewritten_witness :
  let F := ReferenceHeaders.headers in
  let self := XForwardedHost.init XForwardedHost.default_hosts in
  let scope :=
    {| XForwardedHost.scope_type := str_of "http";
       XForwardedHost.scope_client := Some (str_of "10.0.0.9", 4242%Z);
       XForwardedHost.scope_headers :=
         [(str_of "x-forwarded-host", str_of "evil.example")] |} in
  XForwardedHost.rewrite self scope = Ok scope /\
  XForwardedHost.original_call self (fun s => ret (W := unit) s) scope
  = ret (W := unit) scope.
Proof.
  refine (untrusted_request_is_not_rewritten (F := ReferenceHeaders.headers)
            _ (fun s => ret (W := unit) s) _ _).
  right. split; [reflexivity|].
  intros host port Hc. injection Hc as <- _.
  cbn. intuition discriminate.
Defined.

(** The theorem applies to the hosts "*" and two different clients. *)
Lemma wildcard_trusts_every_client_witness :
  let F := ReferenceHeaders.headers in
  let hosts := XForwardedHost.HostsStr (str_of "*") in
  let headers := [(str_of "x-forwarded-host", str_of "app.example")] in
  rewritten_headers (XForwardedHost.init hosts)
    {| XForwardedHost.scope_type := str_of "http";
       XForwardedHost.scope_client := Some (str_of "10.0.0.9", 4242%Z);
       XForwardedHost.scope_headers := headers |}
  = rewritten_headers (XForwardedHost.init hosts)
      {| XForwardedHost.scope_type := str_of "http";
         XForwardedHost.scope_client := None;
         XForwardedHost.scope_headers := headers |}.
Proof.
  refine (wildcard_trusts_every_client (F := ReferenceHeaders.headers)
            _ _ _ _ _ _).
  cbn. now left.
Defined.

(** On the reference header store the body of __call__ stops with
    AttributeError at headers.raw for a trusted client that sends
    x-forwarded-host, and an untrusted client keeps its headers. *)
Example rewrite_trusted_and_untrusted :
  let F := ReferenceHeaders.headers in
  let self := XForwardedHost.init XForwardedHost.default_hosts in
  let headers :=
    [(str_of "host", str_of "internal");
     (str_of "x-forwarded-host", str_of "app.example")] in
  let scope client :=
    {| XForwardedHost.scope_type := str_of "http";
       XForwardedHost.scope_client := Some (client, 4242%Z);
       XForwardedHost.scope_headers := headers |} in
  rewritten_headers self (scope (str_of "127.0.0.1")) = Raise AttributeError /\
  rewritten_headers self (scope (str_of "10.0.0.9")) = Ok headers.
Proof. split; vm_compute; reflexivity. Qed.

(* ===================================================================== *)
(** * RootConfigs                                                         *)
(* ===================================================================== *)

Module PathFacts.

Import PyStr RootConfigs.

Lemma split_items_no_sep (sep : N) (s : str) :
  Forall (fun item => ~ In sep item) (split sep s).
Proof.
  induction s as [|c s IH]; cbn [split].
  - constructor; [intros [] | constructor].
  - destruct (N.eqb_spec c sep) as [->|Hne].
    + constructor; [intros [] | exact IH].
    + destruct (split sep s) as [|item items]; inversion IH; subst.
      * constructor; [|constructor]. intros [H|[]]. congruence.
      * constructor; [|assumption].
        intros [H|H]; [congruence | contradiction].
Qed.

Lemma path_parts_ok (s : str) :
  Forall (fun part => part <> [] /\ ~ In slash part) (path_parts s).
Proof.
  unfold path_parts. apply Forall_forall. intros part Hin.
  apply filter_In in Hin. destruct Hin as [Hin Hf]. split.
  - intros ->. discriminate Hf.
  - pose proof (split_items_no_sep slash s) as H.
    rewrite Forall_forall in H. now apply H.
Qed.

(** A joined path ends with the last character of its last component. *)
Lemma join_last (parts : list str) :
  parts <> [] ->
  Forall (fun part => part <> [] /\ ~ In slash part) parts ->
  exists body c, join [slash] parts = body ++ [c] /\ c <> slash.
Proof.
  intros Hne Hall. induction Hall as [|part parts [Hp Hs] Hall IH];
    [now destruct Hne|].
  destruct parts as [|part' parts].
  - destruct (exists_last Hp) as (body & c & ->).
    exists body, c. split; [reflexivity|].
    intros ->. apply Hs. apply in_or_app. right. now left.
  - destruct IH as (body & c & Hj & Hc); [discriminate|].
    exists (part ++ [slash] ++ body), c. split; [|exact Hc].
    change (join [slash] (part :: part' :: parts))
      with (part ++ [slash] ++ join [slash] (part' :: parts)).
    rewrite Hj. now rewrite <- !app_assoc.
Qed.

Lemma endswith_last (c x : N) (body : str) :
  endswith c (body ++ [x]) = (x =? c).
Proof. unfold endswith. now rewrite rev_app_distr. Qed.

(** The string of a path with a component does not end with a slash. *)
Lemma path_str_with_parts (s : str) :
  path_parts s <> [] ->
  exists body c, path_str s = body ++ [c] /\ c <> slash.
Proof.
  intros Hne.
  destruct (join_last (path_parts s) Hne (path_parts_ok s))
    as (body & c & Hj & Hc).
  exists (path_root s ++ body), c. split; [|exact Hc].
  unfold path_str. rewrite <- app_assoc, <- Hj.
  destruct (path_root s); [|reflexivity].
  destruct (path_parts s); [now destruct Hne | reflexivity].
Qed.

Lemma leading_slashes_app (s t : str) :
  (exists c, In c s /\ c <> slash) ->
  leading_slashes (s ++ t) = leading_slashes s.
Proof.
  induction s as [|x s IH]; intros (c & Hin & Hc); [destruct Hin|].
  cbn [app leading_slashes].
  destruct (N.eqb_spec x slash) as [->|_]; [|reflexivity].
  f_equal. apply IH. destruct Hin as [<-|Hin]; [now destruct Hc|].
  now exists c.
Qed.

Lemma split_snoc_sep (sep : N) (s : str) :
  split sep (s ++ [sep]) = split sep s ++ [[]].
Proof.
  induction s as [|c s IH]; cbn [app split].
  - now rewrite N.eqb_refl.
  - destruct (c =? sep); rewrite IH; [reflexivity|].
    pose proof (PyStrFacts.split_nonempty sep s).
    destruct (split sep s); [contradiction | reflexivity].
Qed.

(** A slash at the end of a path with a component changes nothing. *)
Lemma path_str_trailing_slash (s : str) :
  (exists c, In c s /\ c <> slash) ->
  path_str (s ++ [slash]) = path_str s.
Proof.
  intros Hc. unfold path_str, path_root, path_parts.
  rewrite leading_slashes_app by exact Hc.
  rewrite split_snoc_sep, filter_app. cbn [filter eqb orb negb].
  now rewrite app_nil_r.
Qed.

End PathFacts.

Section RootConfigsTheorems.

Import PyStr RootConfigs.

(** X19: a setting that is an absolute path is taken as it is: the
    translation directory, the configuration file and the domain each
    replace ROOT_DIR instead of being placed under it. *)
Theorem absolute_settings_ignore_root (root locale dir domain config : str) :
  let rc := make root locale dir (Some domain) (Some config) in
  (startswith slash dir = true -> BABEL_TRANSLATION_DIRECTORY rc = dir) /\
  (startswith slash config = true -> BABEL_CONFIG_FILE rc = config) /\
  (startswith slash domain = true -> BABEL_MESSAGE_POT_FILE rc = domain).
Proof.
  cbn zeta. unfold make, path_join.
  cbn [BABEL_TRANSLATION_DIRECTORY BABEL_CONFIG_FILE BABEL_MESSAGE_POT_FILE].
  repeat apply conj; intros ->; reflexivity.
Qed.

(** X20: under a ROOT_DIR that has a component, a relative setting is
    placed after the normalized root and exactly one slash, however
    ROOT_DIR was written. *)
Theorem relative_settings_are_under_root (root locale dir : str)
    (domain config : option str) :
  path_parts root <> [] ->
  startswith slash dir = false ->
  let rc := make root locale dir domain config in
  ROOT_DIR rc = path_root root ++ join [slash] (path_parts root) /\
  BABEL_TRANSLATION_DIRECTORY rc = ROOT_DIR rc ++ [slash] ++ dir /\
  BABEL_MESSAGE_POT_FILE rc = path_join (ROOT_DIR rc) (BABEL_DOMAIN rc) /\
  (domain = None ->
   BABEL_MESSAGE_POT_FILE rc = ROOT_DIR rc ++ [slash] ++ str_of "messages.pot").
Proof.
  intros Hparts Hdir rc.
  destruct (PathFacts.path_str_with_parts root Hparts) as (body & c & Hs & Hc).
  assert (Hjoin : forall v, startswith slash v = false ->
                            path_join (path_str root) v
                            = path_str root ++ [slash] ++ v).
  { intros v Hv. unfold path_join. rewrite Hv, Hs.
    rewrite PathFacts.endswith_last.
    destruct (N.eqb_spec c slash) as [->|_]; [now destruct Hc|].
    destruct (body ++ [c]) eqn:E; [|reflexivity].
    now destruct (app_cons_not_nil body [] c). }
  unfold rc, make.
  cbn [ROOT_DIR BABEL_TRANSLATION_DIRECTORY BABEL_MESSAGE_POT_FILE BABEL_DOMAIN].
  repeat apply conj.
  - unfold path_str. destruct (path_root root); [|reflexivity].
    destruct (path_parts root); [now destruct Hparts | reflexivity].
  - now apply Hjoin.
  - reflexivity.
  - intros ->. now apply Hjoin.
Qed.

(** X21: a slash at the end of a ROOT_DIR that is more than slashes makes
    no difference to any field. *)
Theorem root_trailing_slash_is_ignored (root locale dir : str)
    (domain config : option str) :
  (exists c, In c root /\ c <> slash) ->
  make (root ++ [slash]) locale dir domain config
  = make root locale dir domain config.
Proof.
  intros Hc. unfold make.
  now rewrite PathFacts.path_str_trailing_slash.
Qed.

End RootConfigsTheorems.

(** The theorem applies to three absolute settings. *)
Lemma absolute_settings_ignore_root_witness :
  let rc :=
    RootConfigs.make (str_of "/srv/app") (str_of "en") (str_of "/opt/locale")
      (Some (str_of "/tmp/messages.pot")) (Some (str_of "/etc/babel.cfg")) in
  RootConfigs.BABEL_TRANSLATION_DIRECTORY rc = str_of "/opt/locale" /\
  RootConfigs.BABEL_CONFIG_FILE rc = str_of "/etc/babel.cfg" /\
  RootConfigs.BABEL_MESSAGE_POT_FILE rc = str_of "/tmp/messages.pot".
Proof.
  destruct (absolute_settings_ignore_root (str_of "/srv/app") (str_of "en")
              (str_of "/opt/locale") (str_of "/tmp/messages.pot")
              (str_of "/etc/babel.cfg")) as (H1 & H2 & H3).
  repeat apply conj; [apply H1 | apply H2 | apply H3]; reflexivity.
Defined.

(** The theorem applies to the root "/srv//app/." and the directory
    "locale". *)
Lemma relative_settings_are_under_root_witness :
  let rc :=
    RootConfigs.make (str_of "/srv//app/.") (str_of "en") (str_of "locale")
      None None in
  RootConfigs.ROOT_DIR rc = str_of "/srv/app" /\
  RootConfigs.BABEL_TRANSLATION_DIRECTORY rc = str_of "/srv/app/locale" /\
  RootConfigs.BABEL_MESSAGE_POT_FILE rc = str_of "/srv/app/messages.pot".
Proof.
  destruct (relative_settings_are_under_root (str_of "/srv//app/.")
              (str_of "en") (str_of "locale") None None)
    as (H1 & H2 & _ & H4); [discriminate | reflexivity |].
  repeat apply conj.
  - rewrite H1. reflexivity.
  - rewrite H2, H1. reflexivity.
  - rewrite (H4 eq_refl), H1. reflexivity.
Defined.

(** The theorem applies to the root "srv/app". *)
Lemma root_trailing_slash_is_ignored_witness :
  RootConfigs.make (str_of "srv/app" ++ [RootConfigs.slash]) (str_of "en")
    (str_of "locale") None None
  = RootConfigs.make (str_of "srv/app") (str_of "en") (str_of "locale")
      None None.
Proof.
  apply root_trailing_slash_is_ignored.
  exists 115. split; [now left | discriminate].
Defined.
